(** * ALM: the Python front end of the force-constant engine

    A shallow embedding of [python/alm/alm.py].  The class [ALM] is a thin
    layer over the native module [_alm]: every method checks its
    arguments, updates a few attributes of the Python object and calls
    into the engine.  The engine itself is not part of the embedded code,
    so a method is modelled as a tree of engine calls: each node names the
    call with its arguments and continues with whatever the engine answers
    (a value, or an exception).  Running a tree against a handler yields
    the outcome, the final engine state and the list of calls made. *)

From Stdlib Require Import String Ascii ZArith List Bool Lia.
Import ListNotations.
Local Open Scope string_scope.
Local Open Scope list_scope.
Local Open Scope Z_scope.

(** ** Python exceptions and outcomes *)

Inductive exc_kind : Type :=
| RuntimeError | ValueError | KeyError | TypeError | IndexError
| ZeroDivisionError.

Definition exception : Type := (exc_kind * string)%type.

Inductive outcome (A : Type) : Type :=
| Ok (a : A)
| Exc (e : exception).
Arguments Ok {A} a.
Arguments Exc {A} e.

(** [raise("...")] with a bare string: the operand is not an exception, so
    Python raises [TypeError] with this message instead. *)
Definition raise_str_error : exception :=
  (TypeError, "exceptions must derive from BaseException").

(** ** numpy arrays: a shape and the elements in C order *)

Record ndarray (A : Type) : Type := mk_ndarray {
  shape : list Z;
  data : list A
}.
Arguments mk_ndarray {A} shape data.
Arguments shape {A} n.
Arguments data {A} n.

Definition ndim {A} (a : ndarray A) : Z := Z.of_nat (length (shape a)).

Definition size {A} (a : ndarray A) : Z := Z.of_nat (length (data a)).

Definition prod_dims (dims : list Z) : Z := fold_right Z.mul 1 dims.

(** [len(a)]: the first dimension; a 0-d array has no length. *)
Definition np_len {A} (a : ndarray A) : outcome Z :=
  match shape a with
  | [] => Exc (TypeError, "len() of unsized object")
  | n :: _ => Ok n
  end.

(** [np.zeros(dims)] *)
Definition np_zeros {A} (zero : A) (dims : list Z) : outcome (ndarray A) :=
  if existsb (fun d => d <? 0) dims
  then Exc (ValueError, "negative dimensions are not allowed")
  else Ok (mk_ndarray dims (repeat zero (Z.to_nat (prod_dims dims)))).

(** [np.reshape(a, dims)] in C order, all of [dims] given. *)
Definition np_reshape {A} (a : ndarray A) (dims : list Z)
  : outcome (ndarray A) :=
  if existsb (fun d => d <? 0) dims
  then Exc (ValueError, "negative dimensions not allowed")
  else if prod_dims dims =? size a
       then Ok (mk_ndarray dims (data a))
       else Exc (ValueError, "cannot reshape array").

(** [a.reshape((n, -1))]: the second dimension is inferred. *)
Definition np_reshape_rows {A} (a : ndarray A) (n : Z)
  : outcome (ndarray A) :=
  if n =? -1
  then Exc (ValueError, "can only specify one unknown dimension")
  else if n <? 0
       then Exc (ValueError, "negative dimensions not allowed")
       else if (n =? 0) || negb (size a mod n =? 0)
            then Exc (ValueError, "cannot reshape array")
            else Ok (mk_ndarray [n; size a / n] (data a)).

(** [np.reshape(a, (nrows, ncols), order='F')] of a flat array, kept in C
    order: element (i, j) is [a[i + j * nrows]]. *)
Definition np_reshape_F {A} (zero : A) (a : ndarray A) (nrows ncols : Z)
  : outcome (ndarray A) :=
  if (nrows <? 0) || (ncols <? 0)
  then Exc (ValueError, "negative dimensions not allowed")
  else if nrows * ncols =? size a
       then Ok (mk_ndarray [nrows; ncols]
              (flat_map (fun i =>
                 map (fun j => nth (i + j * Z.to_nat nrows)%nat (data a) zero)
                     (seq 0 (Z.to_nat ncols)))
                 (seq 0 (Z.to_nat nrows))))
       else Exc (ValueError, "cannot reshape array").

(** The engine writes into a buffer handed over by the caller: the shape
    stays, the leading elements are replaced by what was written. *)
Definition overwrite {A} (buf : ndarray A) (written : list A) : ndarray A :=
  mk_ndarray (shape buf)
    (firstn (length (data buf))
            (written ++ skipn (length written) (data buf))).

(** [range(n)] *)
Definition range (n : Z) : list Z :=
  map Z.of_nat (seq 0 (Z.to_nat n)).

(** [a[i]] for [0 <= i] on a flat list *)
Definition list_get {A} (l : list A) (i : Z) : outcome A :=
  if i <? 0 then Exc (IndexError, "index out of bounds")
  else match nth_error l (Z.to_nat i) with
       | Some x => Ok x
       | None => Exc (IndexError, "index out of bounds")
       end.

(** ** str.lower and str.capitalize on ASCII text *)

Definition lower_ascii (c : ascii) : ascii :=
  let n := nat_of_ascii c in
  if ((65 <=? n) && (n <=? 90))%nat then ascii_of_nat (n + 32) else c.

Definition upper_ascii (c : ascii) : ascii :=
  let n := nat_of_ascii c in
  if ((97 <=? n) && (n <=? 122))%nat then ascii_of_nat (n - 32) else c.

Fixpoint lower (s : string) : string :=
  match s with
  | EmptyString => EmptyString
  | String c r => String (lower_ascii c) (lower r)
  end.

Definition capitalize (s : string) : string :=
  match s with
  | EmptyString => EmptyString
  | String c r => String (upper_ascii c) (lower r)
  end.

Definition str_in (s : string) (l : list string) : bool :=
  existsb (String.eqb s) l.

Definition optimizer_control_keys : list string :=
  [ "linear_model"; "use_sparse_solver"; "maxnum_iteration";
    "tolerance_iteration"; "output_frequency"; "standardize";
    "displacement_normalization_factor"; "debiase_after_l1opt";
    "cross_validation"; "l1_alpha"; "l1_alpha_min"; "l1_alpha_max";
    "num_l1_alpha"; "l1_ratio"; "save_solution_path" ].

(** [int(round(np.sqrt(q)))] for an element count [q]: the square root in
    double precision is exact on perfect squares in the range of array
    sizes, and rounds to the nearest integer otherwise.  A negative [q]
    gives NaN, which [int] refuses. *)
Definition round_sqrt (q : Z) : outcome Z :=
  if q <? 0
  then Exc (ValueError, "cannot convert float NaN to integer")
  else let r := Z.sqrt q in
       Ok (if q - r * r <=? r then r else r + 1).

(** [a // b] *)
Definition floordiv (a b : Z) : outcome Z :=
  if b =? 0
  then Exc (ZeroDivisionError, "integer division or modulo by zero")
  else Ok (a / b).

Definition nl : string := String (ascii_of_nat 10) EmptyString.

Section Wrapper.

(** Values of dtype 'double' are carried through the wrapper and never
    computed on; [dzero] is the 0.0 that [np.zeros] fills with.  [pyobj]
    is the type of the values of optimizer options. *)
Variable double : Type.
Variable dzero : double.
Variable pyobj : Type.

(** ** Calls into the native module [_alm] *)

(** The first argument is always [self._id], which is [None] until
    [alm_new] has run. *)
Inductive ecall : Type :=
| E_alm_new
| E_alm_delete (id : option Z)
| E_suggest (id : option Z)
| E_optimize (id : option Z) (solver : string)
| E_get_optimizer_control (id : option Z)
| E_set_optimizer_control (id : option Z) (optctrl : list (option pyobj))
| E_set_training_data (id : option Z) (u f : ndarray double)
| E_define (id : option Z) (maxorder : Z) (nbody : list Z)
           (cutoff_radii : option (ndarray double)) (fc_basis : string)
| E_generate_force_constant (id : option Z)
| E_set_constraint_type (id : option Z) (iconst : Z)
| E_get_atom_mapping_by_pure_translations (id : option Z)
                                          (map_p2s : ndarray Z)
| E_get_displacement_patterns (id : option Z) (atom_indices : ndarray Z)
                              (disp_patterns : ndarray double) (fc_order : Z)
| E_get_fc_origin (id : option Z) (fc_values : ndarray double)
                  (elem_indices : ndarray Z)
| E_get_fc_irreducible (id : option Z) (fc_values : ndarray double)
                       (elem_indices : ndarray Z)
| E_get_fc_all (id : option Z) (fc_values : ndarray double)
               (elem_indices : ndarray Z)
| E_set_fc (id : option Z) (fc_in : list double)
| E_get_matrix_elements (id : option Z) (amat bvec : ndarray double)
| E_get_cv_l1_alpha (id : option Z)
| E_set_cell (id : option Z) (lavec xcoord : ndarray double)
             (numbers kind_indices : ndarray Z)
| E_set_verbosity (id : option Z) (verbosity : Z)
| E_get_nrows_amat (id : option Z)
| E_get_number_of_displacement_patterns (id : option Z) (fc_order : Z)
| E_get_number_of_displaced_atoms (id : option Z) (numbers : ndarray Z)
                                  (fc_order : Z)
| E_get_number_of_fc_elements (id : option Z) (fc_order : Z)
| E_get_number_of_irred_fc_elements (id : option Z) (fc_order : Z).

(** What a call gives back: its return value and, for a call that fills
    buffers, what it wrote into each of them. *)
Definition resp (c : ecall) : Type :=
  match c with
  | E_alm_new => Z
  | E_optimize _ _ => Z
  | E_get_optimizer_control _ => list pyobj
  | E_get_atom_mapping_by_pure_translations _ _ => (Z * list Z)%type
  | E_get_displacement_patterns _ _ _ _ =>
      (Z * list Z * list double)%type
  | E_get_fc_origin _ _ _ | E_get_fc_irreducible _ _ _
  | E_get_fc_all _ _ _ => (list double * list Z)%type
  | E_get_matrix_elements _ _ _ => (list double * list double)%type
  | E_get_cv_l1_alpha _ => double
  | E_set_cell _ _ _ _ _ => list Z
  | E_get_nrows_amat _ => Z
  | E_get_number_of_displacement_patterns _ _ => Z
  | E_get_number_of_displaced_atoms _ _ _ => list Z
  | E_get_number_of_fc_elements _ _ => Z
  | E_get_number_of_irred_fc_elements _ _ => Z
  | _ => unit
  end.

(** ** Programs: trees of engine calls *)

Inductive prog (X : Type) : Type :=
| Ret (x : X)
| Vis (c : ecall) (k : outcome (resp c) -> prog X).
Arguments Ret {X} x.
Arguments Vis {X} c k.

Fixpoint pbind {X Y} (p : prog X) (f : X -> prog Y) : prog Y :=
  match p with
  | Ret x => f x
  | Vis c k => Vis c (fun r => pbind (k r) f)
  end.

(** ** The Python object *)

Record ALM : Type := mk_ALM {
  _id : option Z;
  _cell : option (ndarray double * ndarray double * ndarray Z);
  _lavec : option (ndarray double);
  _xcoord : option (ndarray double);
  _numbers : option (ndarray Z);
  _verbosity : Z;
  _kind_indices : option (ndarray Z);
  _iconst : Z;
  _maxorder : Z;
  _output_filename_prefix : option string;
  _need_transfer : bool
}.

Definition set_id (v : option Z) (s : ALM) : ALM :=
  mk_ALM v (_cell s) (_lavec s) (_xcoord s) (_numbers s) (_verbosity s)
         (_kind_indices s) (_iconst s) (_maxorder s)
         (_output_filename_prefix s) (_need_transfer s).

Definition set_cell_attr
  (v : option (ndarray double * ndarray double * ndarray Z)) (s : ALM)
  : ALM :=
  mk_ALM (_id s) v (_lavec s) (_xcoord s) (_numbers s) (_verbosity s)
         (_kind_indices s) (_iconst s) (_maxorder s)
         (_output_filename_prefix s) (_need_transfer s).

Definition set_kind_indices (v : option (ndarray Z)) (s : ALM) : ALM :=
  mk_ALM (_id s) (_cell s) (_lavec s) (_xcoord s) (_numbers s)
         (_verbosity s) v (_iconst s) (_maxorder s)
         (_output_filename_prefix s) (_need_transfer s).

Definition set_iconst (v : Z) (s : ALM) : ALM :=
  mk_ALM (_id s) (_cell s) (_lavec s) (_xcoord s) (_numbers s)
         (_verbosity s) (_kind_indices s) v (_maxorder s)
         (_output_filename_prefix s) (_need_transfer s).

Definition set_maxorder (v : Z) (s : ALM) : ALM :=
  mk_ALM (_id s) (_cell s) (_lavec s) (_xcoord s) (_numbers s)
         (_verbosity s) (_kind_indices s) (_iconst s) v
         (_output_filename_prefix s) (_need_transfer s).

Definition set_need_transfer (v : bool) (s : ALM) : ALM :=
  mk_ALM (_id s) (_cell s) (_lavec s) (_xcoord s) (_numbers s)
         (_verbosity s) (_kind_indices s) (_iconst s) (_maxorder s)
         (_output_filename_prefix s) v.

(** [ALM.__init__]: the three setters copy their argument with [np.array]
    and mark the parameters as not yet handed to the engine. *)
Definition ALM_init (lavec xcoord : ndarray double) (numbers : ndarray Z)
                    (verbosity : Z) : ALM :=
  mk_ALM None None (Some lavec) (Some xcoord) (Some numbers) verbosity
         None 11 1 None true.

(** The [verbosity] setter. *)
Definition set_verbosity_attr (v : Z) (s : ALM) : ALM :=
  mk_ALM (_id s) (_cell s) (_lavec s) (_xcoord s) (_numbers s) v
         (_kind_indices s) (_iconst s) (_maxorder s)
         (_output_filename_prefix s) true.

(** ** Methods: state passing over programs, with exceptions *)

Definition M (A : Type) : Type := ALM -> prog (outcome A * ALM).

Definition ret {A} (a : A) : M A := fun st => Ret (Ok a, st).

Definition raise {A} (e : exception) : M A := fun st => Ret (Exc e, st).

Definition bind {A B} (m : M A) (f : A -> M B) : M B :=
  fun st =>
    pbind (m st) (fun r =>
      match fst r with
      | Ok a => f a (snd r)
      | Exc e => Ret (Exc e, snd r)
      end).

Definition get : M ALM := fun st => Ret (Ok st, st).

Definition modify (f : ALM -> ALM) : M unit := fun st => Ret (Ok tt, f st).

Definition lift {A} (o : outcome A) : M A :=
  match o with Ok a => ret a | Exc e => raise e end.

(** An engine call; an exception raised inside it propagates. *)
Definition call (c : ecall) : M (resp c) :=
  fun st => Vis c (fun r => Ret (r, st)).

Local Notation "x <- c1 ;; c2" := (bind c1 (fun x => c2))
  (at level 61, c1 at next level, right associativity).
Local Notation "c1 ;; c2" := (bind c1 (fun _ => c2))
  (at level 61, right associativity).

Definition uninitialized_error : exception :=
  (RuntimeError, "This ALM object has to be initialized by ALM::alm_new()").

Definition _show_error_message {A} : M A := raise uninitialized_error.

(** [if self._id is None: self._show_error_message()] *)
Definition check_id : M unit :=
  st <- get ;;
  match _id st with
  | None => _show_error_message
  | Some _ => ret tt
  end.

(** [len(x)] of an attribute that may hold [None] *)
Definition py_len {A} (o : option (ndarray A)) : outcome Z :=
  match o with
  | None => Exc (TypeError, "object of type 'NoneType' has no len()")
  | Some a => np_len a
  end.

Definition _set_cell : M unit :=
  check_id ;;
  st <- get ;;
  match _lavec st with
  | None => raise (RuntimeError, "Basis vectors are not set.")
  | Some lavec =>
  match _xcoord st with
  | None =>
      raise (RuntimeError,
             "Atomic point coordinates (positions) are not set.")
  | Some xcoord =>
  match _numbers st with
  | None => raise (RuntimeError, "Atomic numbers are not set.")
  | Some numbers =>
      nx <- lift (np_len xcoord) ;;
      nn <- lift (np_len numbers) ;;
      if negb (nx =? nn)
      then raise (RuntimeError,
             "Numbers of atomic points and atomic numbers don't agree.")
      else
        let kind :=
          mk_ndarray (shape numbers)
                     (repeat 0 (length (data numbers))) in
        modify (set_kind_indices (Some kind)) ;;
        written <- call (E_set_cell (_id st) lavec xcoord numbers kind) ;;
        modify (set_kind_indices (Some (overwrite kind written))) ;;
        modify (set_cell_attr (Some (lavec, xcoord, numbers)))
  end end end.

Definition _set_verbosity : M unit :=
  check_id ;;
  st <- get ;;
  call (E_set_verbosity (_id st) (_verbosity st)).

Definition _transfer_parameters : M unit :=
  st <- get ;;
  if _need_transfer st
  then _set_cell ;; _set_verbosity ;; modify (set_need_transfer false)
  else ret tt.

Definition alm_new : M unit :=
  st <- get ;;
  match _id st with
  | None =>
      id <- call E_alm_new ;;
      modify (set_id (Some id)) ;;
      if id <? 0
      then raise (RuntimeError, "Too many ALM objects")
      else _transfer_parameters
  | Some _ => raise raise_str_error
  end.

Definition alm_delete : M unit :=
  check_id ;;
  st <- get ;;
  call (E_alm_delete (_id st)) ;;
  modify (set_id None).

Definition suggest : M unit :=
  check_id ;;
  _transfer_parameters ;;
  st <- get ;;
  call (E_suggest (_id st)).

Definition optimize (solver : string) : M Z :=
  check_id ;;
  _transfer_parameters ;;
  if negb (str_in solver ["dense"; "SimplicialLDLT"])
  then raise (ValueError,
         String.append "The given solver option is not supported."
           (String.append nl
              "Available options are 'dense' and 'SimplicialLDLT'."))
  else
    st <- get ;;
    call (E_optimize (_id st) solver).

(** The [optimizer_control] property: [dict(zip(keys, optctrl))]. *)
Definition optimizer_control : M (list (string * pyobj)) :=
  check_id ;;
  st <- get ;;
  optctrl <- call (E_get_optimizer_control (_id st)) ;;
  ret (combine optimizer_control_keys optctrl).

(** A dict keeps one value per key, in insertion order. *)
Fixpoint dict_set {V} (d : list (string * V)) (k : string) (v : V)
  : list (string * V) :=
  match d with
  | [] => [(k, v)]
  | (k', v') :: r =>
      if String.eqb k' k then (k', v) :: r else (k', v') :: dict_set r k v
  end.

Fixpoint dict_get {V} (d : list (string * V)) (k : string) : option V :=
  match d with
  | [] => None
  | (k', v') :: r => if String.eqb k' k then Some v' else dict_get r k
  end.

Fixpoint check_optcontrol_keys (ks : list string) : M unit :=
  match ks with
  | [] => ret tt
  | key :: r =>
      if negb (str_in (lower key) optimizer_control_keys)
      then raise (KeyError,
             String.append key
               " is not a valide key for optimizer control.")
      else check_optcontrol_keys r
  end.

Definition set_optimizer_control (optcontrol : list (string * pyobj))
  : M unit :=
  check_id ;;
  let optcontrol_l :=
    fold_left (fun d kv => dict_set d (lower (fst kv)) (snd kv))
              optcontrol [] in
  check_optcontrol_keys (map fst optcontrol) ;;
  let optctrl := map (dict_get optcontrol_l) optimizer_control_keys in
  st <- get ;;
  call (E_set_optimizer_control (_id st) optctrl).

Definition set_training_data (u f : ndarray double) : M unit :=
  check_id ;;
  if negb (ndim u =? 3)
  then raise (RuntimeError,
              "Displacement array has to be three dimensions.")
  else if negb (ndim f =? 3)
  then raise (RuntimeError, "Force array has to be three dimensions.")
  else
    st <- get ;;
    call (E_set_training_data (_id st) u f).

(** The [nbody] block of [define]: the default list when [nbody] is
    [None], the length check otherwise. *)
Definition define_nbody (maxorder : Z) (nbody : option (list Z))
  : outcome (list Z) :=
  match nbody with
  | None => Ok (map (fun i => i + 2) (range maxorder))
  | Some l =>
      if negb (Z.of_nat (length l) =? maxorder)
      then Exc (RuntimeError,
                "The size of nbody must be equal to maxorder.")
      else Ok l
  end.

Definition cutoff_error : exception :=
  (RuntimeError, "The array shape of cutoff_radii is wrong.").

(** The [cutoff_radii] block of [define]; the argument is what
    [np.array(cutoff_radii, dtype='double', order='C')] makes of it. *)
Definition define_cutoff_radii (maxorder : Z)
                               (cutoff_radii : option (ndarray double))
  : outcome (option (ndarray double)) :=
  match cutoff_radii with
  | None => Ok None
  | Some _cutoff_radii =>
      let nelem := size _cutoff_radii in
      match floordiv nelem maxorder with
      | Exc e => Exc e
      | Ok q =>
          if negb (q * maxorder =? nelem)
          then Exc cutoff_error
          else
            match round_sqrt q with
            | Exc e => Exc e
            | Ok nkd =>
                if negb (nkd ^ 2 - q =? 0)
                then Exc cutoff_error
                else
                  match np_reshape _cutoff_radii [maxorder; nkd; nkd] with
                  | Exc e => Exc e
                  | Ok r => Ok (Some r)
                  end
            end
      end
  end.

(** The [symmetrization_basis] block of [define]. *)
Definition define_fc_basis (symmetrization_basis : string) : string :=
  if str_in (lower symmetrization_basis) ["lattice"; "cartesian"]
  then capitalize symmetrization_basis
  else "Lattice".

Definition define (maxorder : Z) (cutoff_radii : option (ndarray double))
                  (nbody : option (list Z)) (symmetrization_basis : string)
  : M unit :=
  check_id ;;
  _transfer_parameters ;;
  nbody' <- lift (define_nbody maxorder nbody) ;;
  _cutoff_radii <- lift (define_cutoff_radii maxorder cutoff_radii) ;;
  modify (set_maxorder maxorder) ;;
  let fc_basis := define_fc_basis symmetrization_basis in
  st <- get ;;
  call (E_define (_id st) maxorder nbody' _cutoff_radii fc_basis) ;;
  call (E_generate_force_constant (_id st)).

Definition set_constraint (translation rotation : bool) : M unit :=
  if rotation
  then raise raise_str_error
  else
    let iconst := if translation then 11 else 10 in
    modify (set_iconst iconst) ;;
    st <- get ;;
    call (E_set_constraint_type (_id st) (_iconst st)).

Definition getmap_primitive_to_supercell : M (ndarray Z) :=
  check_id ;;
  st <- get ;;
  n <- lift (py_len (_xcoord st)) ;;
  map_p2s <- lift (np_zeros 0 [n]) ;;
  r <- call (E_get_atom_mapping_by_pure_translations (_id st) map_p2s) ;;
  lift (np_reshape_rows (overwrite map_p2s (snd r)) (fst r)).

Definition _get_number_of_displacement_patterns (fc_order : Z) : M Z :=
  st <- get ;;
  call (E_get_number_of_displacement_patterns (_id st) fc_order).

Definition _get_number_of_displaced_atoms (fc_order : Z) : M (ndarray Z) :=
  num_disp_patterns <- _get_number_of_displacement_patterns fc_order ;;
  numbers <- lift (np_zeros 0 [num_disp_patterns]) ;;
  st <- get ;;
  written <-
    call (E_get_number_of_displaced_atoms (_id st) numbers fc_order) ;;
  ret (overwrite numbers written).

Definition _get_number_of_fc_elements (fc_order : Z) : M Z :=
  st <- get ;;
  call (E_get_number_of_fc_elements (_id st) fc_order).

Definition _get_number_of_irred_fc_elements (fc_order : Z) : M Z :=
  st <- get ;;
  call (E_get_number_of_irred_fc_elements (_id st) fc_order).

Definition _get_nrows_amat : M Z :=
  check_id ;;
  st <- get ;;
  call (E_get_nrows_amat (_id st)).

(** [["Cartesian", "Fractional"][nbasis]] *)
Definition basis_of (nbasis : Z) : outcome string :=
  if (nbasis =? 0) || (nbasis =? -2) then Ok "Cartesian"
  else if (nbasis =? 1) || (nbasis =? -1) then Ok "Fractional"
  else Exc (IndexError, "list index out of range").

(** [disp_patterns[pos]]: one row of the (tot_num, 3) array *)
Definition row3 (a : ndarray double) (pos : Z) : outcome (list double) :=
  match shape a with
  | n :: _ =>
      if (0 <=? pos) && (pos <? n)
      then Ok (firstn 3 (skipn (Z.to_nat (3 * pos)) (data a)))
      else Exc (IndexError, "index out of bounds")
  | [] => Exc (IndexError, "too many indices for array")
  end.

Definition displacement : Type := (Z * list double * string)%type.

(** The inner loop [for i in range(num)], from position [pos] on. *)
Fixpoint collect_disp (num : nat) (pos : Z) (atom_indices : ndarray Z)
                      (disp_patterns : ndarray double) (basis : string)
  : outcome (list displacement * Z) :=
  match num with
  | O => Ok ([], pos)
  | S num' =>
      match list_get (data atom_indices) pos with
      | Exc e => Exc e
      | Ok a =>
          match row3 disp_patterns pos with
          | Exc e => Exc e
          | Ok d =>
              match collect_disp num' (pos + 1) atom_indices
                                 disp_patterns basis with
              | Exc e => Exc e
              | Ok (rest, pos') => Ok ((a, d, basis) :: rest, pos')
              end
          end
      end
  end.

(** The outer loop [for num in numbers]. *)
Fixpoint group_disps (numbers : list Z) (pos : Z) (atom_indices : ndarray Z)
                     (disp_patterns : ndarray double) (basis : string)
  : outcome (list (list displacement)) :=
  match numbers with
  | [] => Ok []
  | num :: r =>
      match collect_disp (Z.to_nat num) pos atom_indices
                         disp_patterns basis with
      | Exc e => Exc e
      | Ok (disp, pos') =>
          match group_disps r pos' atom_indices disp_patterns basis with
          | Exc e => Exc e
          | Ok rest => Ok (disp :: rest)
          end
      end
  end.

Definition order_error : exception :=
  (ValueError,
   "The fc_order must not be larger than the maximum order (maxorder).").

Definition get_displacement_patterns (fc_order : Z)
  : M (list (list displacement)) :=
  check_id ;;
  st <- get ;;
  if fc_order >? _maxorder st
  then raise order_error
  else
    numbers <- _get_number_of_displaced_atoms fc_order ;;
    let tot_num := fold_left Z.add (data numbers) 0 in
    atom_indices <- lift (np_zeros 0 [tot_num]) ;;
    disp_patterns <- lift (np_zeros dzero [tot_num; 3]) ;;
    r <- call (E_get_displacement_patterns (_id st) atom_indices
                                           disp_patterns fc_order) ;;
    let atom_indices := overwrite atom_indices (snd (fst r)) in
    let disp_patterns := overwrite disp_patterns (snd r) in
    basis <- lift (basis_of (fst (fst r))) ;;
    lift (group_disps (data numbers) 0 atom_indices disp_patterns basis).

Definition fc_arrays : Type := (ndarray double * ndarray Z)%type.

Definition get_fc (fc_order : Z) (mode : string) : M fc_arrays :=
  check_id ;;
  st <- get ;;
  if fc_order >? _maxorder st
  then raise order_error
  else if String.eqb mode "origin" then
    fc_length <- _get_number_of_fc_elements fc_order ;;
    fc_values <- lift (np_zeros dzero [fc_length]) ;;
    elem_indices <- lift (np_zeros 0 [fc_length; fc_order + 1]) ;;
    r <- call (E_get_fc_origin (_id st) fc_values elem_indices) ;;
    ret (overwrite fc_values (fst r), overwrite elem_indices (snd r))
  else if String.eqb mode "irreducible" || String.eqb mode "irred" then
    fc_length <- _get_number_of_irred_fc_elements fc_order ;;
    fc_values <- lift (np_zeros dzero [fc_length]) ;;
    elem_indices <- lift (np_zeros 0 [fc_length; fc_order + 1]) ;;
    r <- call (E_get_fc_irreducible (_id st) fc_values elem_indices) ;;
    ret (overwrite fc_values (fst r), overwrite elem_indices (snd r))
  else if String.eqb mode "all" then
    n <- lift (py_len (_xcoord st)) ;;
    map_p2s <- lift (np_zeros 0 [n]) ;;
    m <- call (E_get_atom_mapping_by_pure_translations (_id st) map_p2s) ;;
    let ntrans := fst m in
    nfc <- _get_number_of_fc_elements fc_order ;;
    let fc_length := nfc * ntrans in
    fc_values <- lift (np_zeros dzero [fc_length]) ;;
    elem_indices <- lift (np_zeros 0 [fc_length; fc_order + 1]) ;;
    r <- call (E_get_fc_all (_id st) fc_values elem_indices) ;;
    ret (overwrite fc_values (fst r), overwrite elem_indices (snd r))
  else raise (ValueError, "Invalid mode in get_fc.").

(** [for i in range(maxorder): total += irreducible count of order i + 1] *)
Fixpoint count_irred (orders : list Z) (total : Z) : M Z :=
  match orders with
  | [] => ret total
  | i :: r =>
      n <- _get_number_of_irred_fc_elements (i + 1) ;;
      count_irred r (total + n)
  end.

Definition size_error : exception :=
  (RuntimeError, "The size of the given force constant array is incorrect.").

Definition set_fc (fc_in : list double) : M unit :=
  check_id ;;
  st <- get ;;
  let maxorder := _maxorder st in
  fc_length_irred <- count_irred (range maxorder) 0 ;;
  if negb (fc_length_irred =? Z.of_nat (length fc_in))
  then raise size_error
  else call (E_set_fc (_id st) fc_in).

Definition get_matrix_elements : M (ndarray double * ndarray double) :=
  check_id ;;
  st <- get ;;
  let maxorder := _maxorder st in
  nrows <- _get_nrows_amat ;;
  fc_length <- count_irred (range maxorder) 0 ;;
  amat <- lift (np_zeros dzero [nrows * fc_length]) ;;
  bvec <- lift (np_zeros dzero [nrows]) ;;
  r <- call (E_get_matrix_elements (_id st) amat bvec) ;;
  a <- lift (np_reshape_F dzero (overwrite amat (fst r)) nrows fc_length) ;;
  ret (a, overwrite bvec (snd r)).

Definition get_cv_l1_alpha : M double :=
  check_id ;;
  st <- get ;;
  call (E_get_cv_l1_alpha (_id st)).

(** The sum of the irreducible counts [cnt k] over the orders
    k = 1, ..., maxorder. *)
Definition irreducible_total (cnt : Z -> Z) (maxorder : Z) : Z :=
  fold_right Z.add 0
    (map (fun k => cnt (Z.of_nat k)) (seq 1 (Z.to_nat maxorder))).

(** ** Running a program against an engine *)

Section Run.

Variable E : Type.

Definition handler : Type := forall c : ecall, E -> outcome (resp c) * E.

Variable h : handler.

(** The result, the engine state afterwards, and the calls in order. *)
Fixpoint run {X} (p : prog X) (es : E) : X * E * list ecall :=
  match p with
  | Ret x => (x, es, [])
  | Vis c k =>
      let r := h c es in
      let t := run (k (fst r)) (snd r) in
      (fst (fst t), snd (fst t), c :: snd t)
  end.

End Run.

Arguments run {E} h {X} p es.

(** ** Engines to run against *)

(** An answer of the right type for every call. *)
Definition default_resp (c : ecall) : resp c :=
  match c return resp c with
  | E_alm_new => 0
  | E_alm_delete _ => tt
  | E_suggest _ => tt
  | E_optimize _ _ => 0
  | E_get_optimizer_control _ => []
  | E_set_optimizer_control _ _ => tt
  | E_set_training_data _ _ _ => tt
  | E_define _ _ _ _ _ => tt
  | E_generate_force_constant _ => tt
  | E_set_constraint_type _ _ => tt
  | E_get_atom_mapping_by_pure_translations _ _ => (1, [])
  | E_get_displacement_patterns _ _ _ _ => (0, [], [])
  | E_get_fc_origin _ _ _ => ([], [])
  | E_get_fc_irreducible _ _ _ => ([], [])
  | E_get_fc_all _ _ _ => ([], [])
  | E_set_fc _ _ => tt
  | E_get_matrix_elements _ _ _ => ([], [])
  | E_get_cv_l1_alpha _ => dzero
  | E_set_cell _ _ _ _ _ => []
  | E_set_verbosity _ _ => tt
  | E_get_nrows_amat _ => 0
  | E_get_number_of_displacement_patterns _ _ => 0
  | E_get_number_of_displaced_atoms _ _ _ => []
  | E_get_number_of_fc_elements _ _ => 0
  | E_get_number_of_irred_fc_elements _ _ => 0
  end.

(** An engine without state that accepts every call, and reports [cnt k]
    irreducible force constants of order k. *)
Definition counting_engine (cnt : Z -> Z) : handler unit :=
  fun c es =>
    match c return outcome (resp c) * unit with
    | E_get_number_of_irred_fc_elements _ k => (Ok (cnt k), es)
    | c' => (Ok (default_resp c'), es)
    end.

(** Modelled from the spec: the Force-Constant Mapper and the pure
    translations of the engine, which are not among the sources embedded
    here.  The engine holds the pure lattice translations, each as the
    permutation of the atoms it induces, the atoms of the primitive cell at
    the origin, and per order the origin set of force constants, each
    coefficient paired with its flattened indices 3 * atom + direction. *)
Record mapper : Type := mk_mapper {
  translations : list (list Z);
  primitive_atoms : list Z;
  origin_set : Z -> list (double * list Z)
}.

(** Modelled from the spec: a flattened index 3 * atom + direction, with
    its atom moved by a translation. *)
Definition translate_index (perm : list Z) (e : Z) : Z :=
  3 * nth (Z.to_nat (e / 3)) perm 0 + e mod 3.

Definition translate_entry (perm : list Z) (entry : double * list Z)
  : double * list Z :=
  (fst entry, map (translate_index perm) (snd entry)).

(** Modelled from the spec: "all" is the origin set replicated through
    every primitive-cell translation. *)
Definition expand_all (trans : list (list Z))
                      (origin : list (double * list Z))
  : list (double * list Z) :=
  flat_map (fun perm => map (translate_entry perm) origin) trans.

(** Modelled from the spec: the primitive-to-supercell map, one row per
    translation, one column per atom of the primitive cell. *)
Definition map_p2s_table (m : mapper) : list Z :=
  flat_map (fun perm =>
              map (fun a => nth (Z.to_nat a) perm 0) (primitive_atoms m))
           (translations m).

(** Modelled from the spec: the answers of the mapper to the queries that
    [get_fc] makes.  The order asked for is the width of the index buffer
    less one. *)
Definition mapper_engine : handler mapper :=
  fun c m =>
    match c return outcome (resp c) * mapper with
    | E_get_number_of_fc_elements _ k =>
        (Ok (Z.of_nat (length (origin_set m k))), m)
    | E_get_atom_mapping_by_pure_translations _ _ =>
        (Ok (Z.of_nat (length (translations m)), map_p2s_table m), m)
    | E_get_fc_origin _ _ idx =>
        let origin := origin_set m (nth 1 (shape idx) 0 - 1) in
        (Ok (map fst origin, concat (map snd origin)), m)
    | E_get_fc_all _ _ idx =>
        let all :=
          expand_all (translations m)
                     (origin_set m (nth 1 (shape idx) 0 - 1)) in
        (Ok (map fst all, concat (map snd all)), m)
    | c' => (Ok (default_resp c'), m)
    end.



(** ** Properties of the wrapper *)

Lemma check_id_initialized (st : ALM) (i : Z) :
  _id st = Some i -> check_id st = Ret (Ok tt, st).
Proof. intros H. unfold check_id, bind, get. cbn. now rewrite H. Qed.

Lemma check_id_uninitialized (st : ALM) :
  _id st = None -> check_id st = Ret (Exc uninitialized_error, st).
Proof. intros H. unfold check_id, bind, get. cbn. now rewrite H. Qed.

(** A method that starts with the guard stops there on an object without
    an engine instance. *)
Lemma guarded_uninitialized {A} (body : M A) (st : ALM) :
  _id st = None ->
  (check_id ;; body) st = Ret (Exc uninitialized_error, st).
Proof.
  intros H. unfold bind. now rewrite (check_id_uninitialized st H).
Qed.

Lemma guarded_initialized {A} (body : M A) (st : ALM) (i : Z) :
  _id st = Some i -> (check_id ;; body) st = body st.
Proof.
  intros H. unfold bind. now rewrite (check_id_initialized st i H).
Qed.

(** C1. On an object with an engine instance, asking for displacement
    patterns or force constants of an order above the configured maximum
    is a [ValueError] raised on the spot: the program is a leaf, so no
    engine call is made, nothing is returned, and the object is left as it
    was. *)
Theorem order_above_maxorder_rejected
  (st : ALM) (i fc_order : Z) (mode : string) :
  _id st = Some i ->
  _maxorder st < fc_order ->
  get_displacement_patterns fc_order st
    = Ret (Exc (ValueError,
                "The fc_order must not be larger than the maximum order (maxorder)."),
           st)
  /\ get_fc fc_order mode st
    = Ret (Exc (ValueError,
                "The fc_order must not be larger than the maximum order (maxorder)."),
           st).
Proof.
  intros Hid Hord.
  assert (Hgt : (fc_order >? _maxorder st) = true)
    by (apply Z.gtb_lt; exact Hord).
  split.
  - unfold get_displacement_patterns.
    rewrite (guarded_initialized _ st i Hid).
    unfold bind at 1. cbn. now rewrite Hgt.
  - unfold get_fc.
    rewrite (guarded_initialized _ st i Hid).
    unfold bind at 1. cbn. now rewrite Hgt.
Qed.

(** C2. Asking for the rotational invariance stops [set_constraint]
    before it touches the object or the engine, but what reaches the
    caller is the [TypeError] of raising a bare string: the message about
    rotational invariance is lost. *)
Theorem set_constraint_rotation_raises_TypeError
  (st : ALM) (translation : bool) :
  set_constraint translation true st
    = Ret (Exc (TypeError, "exceptions must derive from BaseException"), st).
Proof. reflexivity. Qed.

(** Every guarded method answers an object without an engine instance
    with the error of [_show_error_message], and makes no engine call. *)
Lemma guarded_methods_uninitialized (st : ALM) :
  _id st = None ->
  alm_delete st = Ret (Exc uninitialized_error, st)
  /\ suggest st = Ret (Exc uninitialized_error, st)
  /\ (forall solver, optimize solver st = Ret (Exc uninitialized_error, st))
  /\ (forall mo cr nb b,
        define mo cr nb b st = Ret (Exc uninitialized_error, st))
  /\ (forall u f,
        set_training_data u f st = Ret (Exc uninitialized_error, st))
  /\ getmap_primitive_to_supercell st = Ret (Exc uninitialized_error, st)
  /\ (forall k,
        get_displacement_patterns k st = Ret (Exc uninitialized_error, st))
  /\ (forall k mode, get_fc k mode st = Ret (Exc uninitialized_error, st))
  /\ (forall fc, set_fc fc st = Ret (Exc uninitialized_error, st))
  /\ get_matrix_elements st = Ret (Exc uninitialized_error, st)
  /\ get_cv_l1_alpha st = Ret (Exc uninitialized_error, st)
  /\ optimizer_control st = Ret (Exc uninitialized_error, st)
  /\ (forall oc,
        set_optimizer_control oc st = Ret (Exc uninitialized_error, st)).
Proof.
  intros H.
  repeat split; intros; apply guarded_uninitialized; exact H.
Qed.

(** C4. [set_constraint] has no guard: on an object whose [_id] is [None]
    it stores the constraint type and calls the engine with [None] as the
    instance, where the other methods stop with the error of
    [_show_error_message]. *)
Theorem set_constraint_unguarded (st : ALM) (translation : bool) :
  let iconst := if translation then 11 else 10 in
  set_constraint translation false (set_id None st)
    = Vis (E_set_constraint_type None iconst)
          (fun r => Ret (r, set_iconst iconst (set_id None st))).
Proof. destruct translation; reflexivity. Qed.


(** ** Traces *)

Section Traces.

Variable E : Type.
Variable h : handler E.

Lemma run_pbind {X Y} (p : prog X) (f : X -> prog Y) (es : E) :
  run h (pbind p f) es
    = let t := run h p es in
      let u := run h (f (fst (fst t))) (snd (fst t)) in
      (fst (fst u), snd (fst u), snd t ++ snd u).
Proof.
  revert es. induction p as [x | c k IH]; intros es; cbn.
  - now destruct (run h (f x) es) as [[y es'] tr].
  - now rewrite IH.
Qed.

Lemma run_bind_ok {A B} (m : M A) (f : A -> M B) st es a st1 es1 tr1 :
  run h (m st) es = (Ok a, st1, es1, tr1) ->
  run h (bind m f st) es
    = let u := run h (f a st1) es1 in
      (fst (fst u), snd (fst u), tr1 ++ snd u).
Proof.
  intros Hm. unfold bind. rewrite run_pbind, Hm. reflexivity.
Qed.

Lemma run_bind_exc {A B} (m : M A) (f : A -> M B) st es e st1 es1 tr1 :
  run h (m st) es = (Exc e, st1, es1, tr1) ->
  run h (bind m f st) es = (Exc e, st1, es1, tr1).
Proof.
  intros Hm. unfold bind. rewrite run_pbind, Hm. cbn.
  now rewrite app_nil_r.
Qed.

Lemma run_lift {A} (o : outcome A) st es :
  run h (lift o st) es = (o, st, es, []).
Proof. now destruct o. Qed.

Lemma run_then {A B} (m : M A) (f : A -> M B)
               st es a st1 es1 tr1 o st2 es2 tr2 :
  run h (m st) es = (Ok a, st1, es1, tr1) ->
  run h (f a st1) es1 = (o, st2, es2, tr2) ->
  run h (bind m f st) es = (o, st2, es2, tr1 ++ tr2).
Proof.
  intros Hm Hf. rewrite (run_bind_ok _ _ _ _ _ _ _ _ Hm). cbv zeta.
  now rewrite Hf.
Qed.

Lemma run_get st es : run h (get st) es = (Ok st, st, es, []).
Proof. reflexivity. Qed.

Lemma run_call (c : ecall) st es :
  run h (call c st) es = (fst (h c es), st, snd (h c es), [c]).
Proof. reflexivity. Qed.

(** Handing the parameters over touches neither the instance id nor the
    configured order. *)
Lemma transfer_keeps_id st es :
  let t := run h (_transfer_parameters st) es in
  _id (snd (fst (fst t))) = _id st
  /\ _maxorder (snd (fst (fst t))) = _maxorder st
  /\ _xcoord (snd (fst (fst t))) = _xcoord st.
Proof.
  unfold _transfer_parameters, _set_cell, _set_verbosity, check_id,
    _show_error_message, bind, get, modify, call, raise, ret. cbn.
  destruct (_need_transfer st); cbn; [ | now auto ].
  destruct (_id st) eqn:Hid; cbn; [ | now auto ].
  destruct (_lavec st); cbn; [ | now auto ].
  destruct (_xcoord st) as [x | ] eqn:Hx; cbn; [ | now auto ].
  destruct (_numbers st) as [nums | ]; cbn; [ | now auto ].
  destruct (np_len x); cbn; [ | now auto ].
  destruct (np_len nums); cbn; [ | now auto ].
  destruct (negb _); cbn; [ now auto | ].
  rewrite Hid. cbn.
  destruct (h _ es) as [[w | e] es1]; cbn; [ | now auto ].
  rewrite Hid. cbn.
  destruct (h _ es1) as [[w' | e] es2]; cbn; now auto.
Qed.

(** What [define] does once the parameters have been handed over: the
    two argument blocks, then the two engine calls. *)
Lemma define_run st i es st1 es1 tr1 mo cr nb b :
  _id st = Some i ->
  run h (_transfer_parameters st) es = (Ok tt, st1, es1, tr1) ->
  run h (define mo cr nb b st) es
    = match define_nbody mo nb with
      | Exc e => (Exc e, st1, es1, tr1)
      | Ok nbody' =>
          match define_cutoff_radii mo cr with
          | Exc e => (Exc e, st1, es1, tr1)
          | Ok cr' =>
              let c := E_define (Some i) mo nbody' cr' (define_fc_basis b) in
              let g := E_generate_force_constant (Some i) in
              let st2 := set_maxorder mo st1 in
              match h c es1 with
              | (Exc e, es2) => (Exc e, st2, es2, tr1 ++ [c])
              | (Ok _, es2) =>
                  (fst (h g es2), st2, snd (h g es2), tr1 ++ [c; g])
              end
          end
      end.
Proof.
  intros Hid Htr.
  assert (Hid1 : _id st1 = Some i).
  { pose proof (transfer_keeps_id st es) as K. cbv zeta in K.
    rewrite Htr in K. cbn in K. destruct K as [K _]. now rewrite K. }
  unfold define. rewrite (guarded_initialized _ st i Hid).
  rewrite (run_bind_ok _ _ _ _ _ _ _ _ Htr). cbv zeta.
  destruct (define_nbody mo nb) as [nbody' | e]; cbn;
    [ | now rewrite app_nil_r ].
  destruct (define_cutoff_radii mo cr) as [cr' | e]; cbn;
    [ | now rewrite app_nil_r ].
  rewrite Hid1.
  destruct (h (E_define (Some i) mo nbody' cr' (define_fc_basis b)) es1)
    as [[u | e] es2]; cbn; [ | reflexivity ].
  destruct (h (E_generate_force_constant (Some i)) es2) as [o es3].
  reflexivity.
Qed.














(** The counting loop, against an engine that answers the count of order
    k with [cnt k] and is not changed by the question. *)
Lemma count_irred_run (cnt : Z -> Z) (i : Z) st :
  _id st = Some i ->
  (forall k es,
     h (E_get_number_of_irred_fc_elements (Some i) k) es = (Ok (cnt k), es)) ->
  forall (a : nat) (n : nat) (total : Z) es,
    run h (count_irred (map Z.of_nat (seq a n)) total st) es
      = (Ok (total + fold_right Z.add 0
                       (map (fun k => cnt (Z.of_nat k)) (seq (S a) n))),
         st, es,
         map (fun k => E_get_number_of_irred_fc_elements (Some i) (Z.of_nat k))
             (seq (S a) n)).
Proof.
  intros Hid Hcnt a n. revert a.
  induction n as [ | n IH]; intros a total es; cbn [seq map count_irred].
  - cbn. now rewrite Z.add_0_r.
  - assert (Hq : run h (_get_number_of_irred_fc_elements (Z.of_nat a + 1) st) es
                 = (Ok (cnt (Z.of_nat (S a))), st, es,
                    [E_get_number_of_irred_fc_elements (Some i)
                                                       (Z.of_nat (S a))])).
    { unfold _get_number_of_irred_fc_elements, bind, get, call. cbn.
      rewrite Hid. replace (Z.of_nat a + 1) with (Z.of_nat (S a)) by lia.
      now rewrite Hcnt. }
    rewrite (run_bind_ok _ _ _ _ _ _ _ _ Hq). cbv zeta.
    rewrite (IH (S a)). cbn [fst snd fold_right app].
    now rewrite Z.add_assoc.
Qed.

(** C3. Against an engine that reports [cnt k] irreducible force
    constants of order k, [set_fc] compares the length of the vector with
    the sum of [cnt k] over k = 1..maxorder.  If they differ it raises the
    [RuntimeError] on the size after the count queries only: object and
    engine are as before and the vector is not handed over.  If they agree
    the vector goes to the engine's [set_fc].  So the vector is handed over
    exactly when the lengths agree. *)
Theorem set_fc_length_check
  (cnt : Z -> Z) (i : Z) st es (fc_in : list double) :
  _id st = Some i ->
  (forall k es,
     h (E_get_number_of_irred_fc_elements (Some i) k) es = (Ok (cnt k), es)) ->
  let total := irreducible_total cnt (_maxorder st) in
  let queries :=
    map (fun k => E_get_number_of_irred_fc_elements (Some i) (Z.of_nat k))
        (seq 1 (Z.to_nat (_maxorder st))) in
  let inject := E_set_fc (Some i) fc_in in
  (Z.of_nat (length fc_in) <> total ->
     run h (set_fc fc_in st) es
       = (Exc (RuntimeError,
               "The size of the given force constant array is incorrect."),
          st, es, queries))
  /\ (Z.of_nat (length fc_in) = total ->
     run h (set_fc fc_in st) es
       = (fst (h inject es), st, snd (h inject es), queries ++ [inject]))
  /\ (In inject (snd (run h (set_fc fc_in st) es))
      <-> Z.of_nat (length fc_in) = total).
Proof.
  intros Hid Hcnt total queries inject.
  assert (Hloop : run h (count_irred (range (_maxorder st)) 0 st) es
                  = (Ok total, st, es, queries)).
  { unfold range. now rewrite (count_irred_run cnt i st Hid Hcnt). }
  assert (Hrun : run h (set_fc fc_in st) es
                 = if total =? Z.of_nat (length fc_in)
                   then (fst (h inject es), st, snd (h inject es),
                         queries ++ [inject])
                   else (Exc size_error, st, es, queries)).
  { unfold set_fc. rewrite (guarded_initialized _ st i Hid).
    unfold bind at 1. cbn [get pbind fst snd].
    rewrite (run_bind_ok _ _ _ _ _ _ _ _ Hloop). cbv zeta.
    destruct (total =? Z.of_nat (length fc_in)); cbn.
    - rewrite Hid. fold inject. now destruct (h inject es).
    - now rewrite app_nil_r. }
  assert (Hq : ~ In inject queries).
  { unfold queries. intros Hin. apply in_map_iff in Hin.
    destruct Hin as [k [Hk _]]. discriminate Hk. }
  split; [ | split ].
  - intros Hne. rewrite Hrun.
    destruct (total =? Z.of_nat (length fc_in)) eqn:Ht;
      [ apply Z.eqb_eq in Ht; lia | reflexivity ].
  - intros Heq. rewrite Hrun.
    destruct (total =? Z.of_nat (length fc_in)) eqn:Ht;
      [ reflexivity | apply Z.eqb_neq in Ht; lia ].
  - rewrite Hrun.
    destruct (total =? Z.of_nat (length fc_in)) eqn:Ht; cbn [snd].
    + apply Z.eqb_eq in Ht. split; [ intros _; lia | intros _ ].
      apply in_or_app. right. now left.
    + apply Z.eqb_neq in Ht. split; [ intros Hin; now elim Hq | lia ].
Qed.

Lemma overwrite_size {A} (buf : ndarray A) (w : list A) :
  size (overwrite buf w) = size buf.
Proof.
  unfold size, overwrite. cbn. f_equal.
  rewrite length_firstn, length_app, length_skipn. lia.
Qed.

Lemma np_zeros_vector (n : Z) :
  0 <= n ->
  np_zeros 0 [n] = Ok (mk_ndarray [n] (repeat 0 (Z.to_nat n))).
Proof.
  intros Hn. unfold np_zeros, prod_dims. cbn.
  replace (n <? 0) with false by (symmetry; apply Z.ltb_ge; lia).
  cbn. now rewrite Z.mul_1_r.
Qed.

(** C9. With N atoms in the structure and an engine that reports
    [ntrans] pure translations, [getmap_primitive_to_supercell] makes that
    one query and, when it returns, returns an integer array of shape
    (ntrans, N / ntrans) with N elements, so [ntrans] divides N; it does
    return whenever the reported [ntrans] is positive and divides N. *)
Theorem getmap_primitive_to_supercell_shape
  st i x N es ntrans w es' :
  _id st = Some i ->
  _xcoord st = Some x ->
  np_len x = Ok N ->
  0 <= N ->
  (forall buf,
     h (E_get_atom_mapping_by_pure_translations (Some i) buf) es
       = (Ok (ntrans, w), es')) ->
  let r := run h (getmap_primitive_to_supercell st) es in
  (exists buf, snd r = [E_get_atom_mapping_by_pure_translations (Some i) buf])
  /\ (forall a, fst (fst (fst r)) = Ok a ->
        shape a = [ntrans; N / ntrans]
        /\ size a = N
        /\ ntrans * (N / ntrans) = N
        /\ 0 < ntrans
        /\ (ntrans | N))
  /\ (0 < ntrans -> (ntrans | N) -> exists a, fst (fst (fst r)) = Ok a).
Proof.
  intros Hid Hx Hlen HN Hq r.
  set (buf := mk_ndarray [N] (repeat 0 (Z.to_nat N))).
  assert (Hrun : r = (np_reshape_rows (overwrite buf w) ntrans, st, es',
                      [E_get_atom_mapping_by_pure_translations (Some i) buf])).
  { subst r. unfold getmap_primitive_to_supercell.
    rewrite (guarded_initialized _ st i Hid).
    unfold bind at 1. cbn [get pbind fst snd].
    unfold bind at 1. rewrite Hx. cbn [py_len]. rewrite Hlen.
    cbn [lift ret pbind fst snd].
    unfold bind at 1. rewrite (np_zeros_vector N HN).
    cbn [lift ret pbind fst snd]. fold buf.
    unfold bind, call. cbn [pbind run]. rewrite Hid, (Hq buf).
    cbn [fst snd]. now destruct (np_reshape_rows (overwrite buf w) ntrans). }
  rewrite Hrun. cbn [fst snd]. clear Hrun r.
  assert (Hsz : size (overwrite buf w) = N).
  { rewrite overwrite_size. unfold size, buf. cbn.
    rewrite repeat_length. lia. }
  unfold np_reshape_rows. rewrite Hsz.
  split; [ exists buf; reflexivity | ].
  destruct (ntrans =? -1) eqn:H1.
  { apply Z.eqb_eq in H1. split; [ cbn; intros a Ha; discriminate Ha | lia ]. }
  destruct (ntrans <? 0) eqn:H2.
  { apply Z.ltb_lt in H2. split; [ cbn; intros a Ha; discriminate Ha | lia ]. }
  apply Z.ltb_ge in H2.
  destruct (ntrans =? 0) eqn:H3; cbn [orb].
  { apply Z.eqb_eq in H3. split; [ cbn; intros a Ha; discriminate Ha | lia ]. }
  apply Z.eqb_neq in H3.
  destruct (N mod ntrans =? 0) eqn:H4; cbn [negb].
  - apply Z.eqb_eq in H4. split.
    + cbn. intros a Ha. injection Ha as <-. cbn [shape].
      assert (Hdiv : (ntrans | N)) by (apply Z.mod_divide; [ lia | exact H4 ]).
      repeat split; try assumption; try lia.
      rewrite (Z.div_mod N ntrans) at 2 by lia. lia.
    + intros _ _. cbn. eexists. reflexivity.
  - apply Z.eqb_neq in H4. split.
    + cbn. intros a Ha. discriminate Ha.
    + intros Hpos Hdiv. exfalso. apply H4.
      apply Z.mod_divide; [ lia | exact Hdiv ].
Qed.

End Traces.

(** ** The wrapper over the mapper of the spec *)

Lemma overwrite_exact {A} (buf : ndarray A) (w : list A) :
  length w = length (data buf) ->
  overwrite buf w = mk_ndarray (shape buf) w.
Proof.
  intros Hl. unfold overwrite. f_equal.
  rewrite skipn_all2 by lia. rewrite app_nil_r, <- Hl. apply firstn_all.
Qed.






Lemma np_zeros_ok {A} (z : A) (dims : list Z) :
  Forall (fun d => 0 <= d) dims ->
  np_zeros z dims
    = Ok (mk_ndarray dims (repeat z (Z.to_nat (prod_dims dims)))).
Proof.
  intros Hd. unfold np_zeros.
  replace (existsb (fun d => d <? 0) dims) with false; [ reflexivity | ].
  symmetry. induction Hd as [ | d dims H0 _ IH]; cbn; [ reflexivity | ].
  rewrite IH. replace (d <? 0) with false; [ reflexivity | ].
  symmetry. apply Z.ltb_ge. exact H0.
Qed.

Section Lengths.

Variable E : Type.
Variable h : handler E.

(** Whatever the engine writes, the arrays that [get_fc] returns have the
    sizes the wrapper gave them: the engine's count of force constants in
    mode "origin", and that count times [ntrans] in mode "all". *)
Lemma get_fc_shapes st i x N order n ntrans w es :
  _id st = Some i ->
  _xcoord st = Some x ->
  np_len x = Ok N ->
  0 <= N ->
  0 <= order <= _maxorder st ->
  0 <= n ->
  0 <= ntrans ->
  (forall es,
     h (E_get_number_of_fc_elements (Some i) order) es = (Ok n, es)) ->
  (forall buf es,
     h (E_get_atom_mapping_by_pure_translations (Some i) buf) es
       = (Ok (ntrans, w), es)) ->
  (forall a, fst (fst (fst (run h (get_fc order "origin" st) es))) = Ok a ->
     shape (fst a) = [n] /\ shape (snd a) = [n; order + 1])
  /\ (forall a, fst (fst (fst (run h (get_fc order "all" st) es))) = Ok a ->
     shape (fst a) = [n * ntrans]
     /\ shape (snd a) = [n * ntrans; order + 1]).
Proof.
  intros Hid Hx Hlen HN Hord Hn Hnt Hcount Hmap.
  assert (Hgt : (order >? _maxorder st) = false).
  { apply not_true_is_false. intros Hc. apply Z.gtb_lt in Hc. lia. }
  assert (Hq : forall es0,
             run h (_get_number_of_fc_elements order st) es0
             = (Ok n, st, es0,
                [E_get_number_of_fc_elements (Some i) order])).
  { intros es0. unfold _get_number_of_fc_elements, bind, get, call. cbn.
    now rewrite Hid, Hcount. }
  split; intros a; unfold get_fc;
    rewrite (guarded_initialized _ st i Hid);
    unfold bind at 1; cbn [get pbind fst snd]; rewrite Hgt;
    simpl (String.eqb _ _); cbv iota; simpl (_ || _)%bool; cbv iota.
  - rewrite (run_bind_ok _ _ _ _ _ _ _ _ _ _ (Hq es)). cbv zeta.
    rewrite !np_zeros_ok by (repeat constructor; lia).
    unfold bind, call, lift, ret. cbn [pbind run fst snd]. rewrite Hid.
    destruct (h _ es) as [[r | e] es2]; cbn; intros Ha;
      [ injection Ha as <-; split; reflexivity | discriminate Ha ].
  - rewrite Hx. cbn [py_len]. rewrite Hlen.
    rewrite (run_bind_ok _ _ _ _ _ _ _ _ _ _ (run_lift _ _ _ _ _)).
    cbv zeta. rewrite np_zeros_ok by (repeat constructor; lia).
    rewrite (run_bind_ok _ _ _ _ _ _ _ _ _ _ (run_lift _ _ _ _ _)).
    cbv zeta.
    assert (Hm : forall buf,
               run h (call (E_get_atom_mapping_by_pure_translations
                              (_id st) buf) st) es
               = (Ok (ntrans, w), st, es,
                  [E_get_atom_mapping_by_pure_translations (Some i) buf])).
    { intros buf. unfold call. cbn. now rewrite Hid, Hmap. }
    rewrite (run_bind_ok _ _ _ _ _ _ _ _ _ _ (Hm _)). cbv zeta.
    cbn [fst snd].
    rewrite (run_bind_ok _ _ _ _ _ _ _ _ _ _ (Hq es)). cbv zeta.
    rewrite !np_zeros_ok by (repeat constructor; lia).
    unfold bind, call, lift, ret. cbn [pbind run fst snd]. rewrite Hid.
    destruct (h _ es) as [[r | e] es2]; cbn; intros Ha;
      [ injection Ha as <-; split; reflexivity | discriminate Ha ].
Qed.

End Lengths.






(** ** The rest of the class *)

(** The setters of [lavec], [xcoord] and [numbers]: each stores a copy and
    marks the parameters as not yet handed to the engine. *)
Definition set_lavec_attr (v : ndarray double) (s : ALM) : ALM :=
  mk_ALM (_id s) (_cell s) (Some v) (_xcoord s) (_numbers s) (_verbosity s)
         (_kind_indices s) (_iconst s) (_maxorder s)
         (_output_filename_prefix s) true.

Definition set_xcoord_attr (v : ndarray double) (s : ALM) : ALM :=
  mk_ALM (_id s) (_cell s) (_lavec s) (Some v) (_numbers s) (_verbosity s)
         (_kind_indices s) (_iconst s) (_maxorder s)
         (_output_filename_prefix s) true.

Definition set_numbers_attr (v : ndarray Z) (s : ALM) : ALM :=
  mk_ALM (_id s) (_cell s) (_lavec s) (_xcoord s) (Some v) (_verbosity s)
         (_kind_indices s) (_iconst s) (_maxorder s)
         (_output_filename_prefix s) true.




(** ** What a method leaves of the object *)

(** [P] holds at every leaf of a program. *)
Fixpoint leaves {X} (P : X -> Prop) (p : prog X) : Prop :=
  match p with
  | Ret x => P x
  | Vis c k => forall r, leaves P (k r)
  end.

(** A method keeps [P]: started on an object with [P], it ends on one with
    [P], whatever the engine answers and whether it returns or raises. *)
Definition preserves {A} (P : ALM -> Prop) (m : M A) : Prop :=
  forall st, P st -> leaves (fun r => P (snd r)) (m st).

Lemma leaves_pbind {X Y} (P : X -> Prop) (Q : Y -> Prop)
                   (p : prog X) (f : X -> prog Y) :
  leaves P p -> (forall x, P x -> leaves Q (f x)) -> leaves Q (pbind p f).
Proof.
  intros Hp Hf. induction p as [x | c k IH]; cbn in *.
  - now apply Hf.
  - intros r. apply IH. apply Hp.
Qed.

Lemma preserves_bind {A B} P (m : M A) (f : A -> M B) :
  preserves P m -> (forall a, preserves P (f a)) -> preserves P (bind m f).
Proof.
  intros Hm Hf st Hst. unfold bind.
  apply (leaves_pbind (fun r => P (snd r))); [ now apply Hm | ].
  intros [[a | e] st1] H1; cbn in *; [ now apply Hf | exact H1 ].
Qed.

Lemma preserves_ret {A} P (a : A) : preserves P (ret a).
Proof. intros st Hst. exact Hst. Qed.

Lemma preserves_raise {A} P (e : exception) : preserves P (@raise A e).
Proof. intros st Hst. exact Hst. Qed.

Lemma preserves_get P : preserves P get.
Proof. intros st Hst. exact Hst. Qed.

Lemma preserves_lift {A} P (o : outcome A) : preserves P (lift o).
Proof. destruct o; [ apply preserves_ret | apply preserves_raise ]. Qed.

Lemma preserves_call P (c : ecall) : preserves P (call c).
Proof. intros st Hst r. exact Hst. Qed.

Lemma preserves_modify P (f : ALM -> ALM) :
  (forall s, P s -> P (f s)) -> preserves P (modify f).
Proof. intros Hf st Hst. cbn. now apply Hf. Qed.

Ltac keep_step :=
  first
    [ apply preserves_ret
    | apply preserves_raise
    | apply preserves_get
    | apply preserves_lift
    | apply preserves_call
    | apply preserves_bind; [ | intros ? ]
    | match goal with
      | |- preserves _ (match ?x with _ => _ end) => destruct x
      | |- preserves _ (let _ := _ in _) => cbv zeta
      end ].

Ltac keeps := repeat keep_step.

Lemma preserves_check_id P : preserves P check_id.
Proof. unfold check_id, _show_error_message. keeps. Qed.

Lemma preserves_count_irred P (orders : list Z) (total : Z) :
  preserves P (count_irred orders total).
Proof.
  revert total. induction orders as [ | i r IH]; intros total; cbn.
  - apply preserves_ret.
  - unfold _get_number_of_irred_fc_elements. keeps. apply IH.
Qed.

Lemma preserves_check_optcontrol_keys P (ks : list string) :
  preserves P (check_optcontrol_keys ks).
Proof.
  induction ks as [ | k r IH]; cbn; [ apply preserves_ret | ].
  destruct (negb _); [ apply preserves_raise | exact IH ].
Qed.

(** The methods that only ask the engine, or hand it data, keep any
    property of the object. *)
Lemma queries_preserve P :
  (forall u f, preserves P (set_training_data u f))
  /\ (forall fc, preserves P (set_fc fc))
  /\ (forall k mode, preserves P (get_fc k mode))
  /\ preserves P getmap_primitive_to_supercell
  /\ (forall k, preserves P (get_displacement_patterns k))
  /\ preserves P get_matrix_elements
  /\ preserves P get_cv_l1_alpha
  /\ preserves P optimizer_control
  /\ (forall oc, preserves P (set_optimizer_control oc)).
Proof.
  pose proof (preserves_check_id P) as Hc.
  pose proof (preserves_count_irred P) as Hi.
  pose proof (preserves_check_optcontrol_keys P) as Hk.
  repeat split; intros;
    unfold set_training_data, set_fc, get_fc, getmap_primitive_to_supercell,
      get_displacement_patterns, get_matrix_elements, get_cv_l1_alpha,
      optimizer_control, set_optimizer_control, _get_nrows_amat,
      _get_number_of_displaced_atoms, _get_number_of_displacement_patterns,
      _get_number_of_fc_elements, _get_number_of_irred_fc_elements;
    repeat first [ exact Hc | apply Hi | apply Hk | keep_step ].
Qed.

Lemma preserves_transfer P :
  (forall v s, P s -> P (set_kind_indices v s)) ->
  (forall v s, P s -> P (set_cell_attr v s)) ->
  (forall v s, P s -> P (set_need_transfer v s)) ->
  preserves P _transfer_parameters.
Proof.
  intros Hk Hc Hn. pose proof (preserves_check_id P) as Hid.
  unfold _transfer_parameters, _set_cell, _set_verbosity.
  repeat first [ exact Hid | keep_step
               | apply preserves_modify; intros s Hs;
                 first [ now apply Hk | now apply Hc | now apply Hn ] ].
Qed.

(** The methods that configure the engine keep any property of the object
    that does not depend on the attributes they assign. *)
Lemma configuring_preserve P :
  (forall v s, P s -> P (set_kind_indices v s)) ->
  (forall v s, P s -> P (set_cell_attr v s)) ->
  (forall v s, P s -> P (set_need_transfer v s)) ->
  preserves P suggest
  /\ (forall solver, preserves P (optimize solver))
  /\ ((forall v s, P s -> P (set_iconst v s)) ->
      forall t r, preserves P (set_constraint t r))
  /\ ((forall v s, P s -> P (set_maxorder v s)) ->
      forall mo cr nb b, preserves P (define mo cr nb b))
  /\ ((forall v s, P s -> P (set_id v s)) ->
      preserves P alm_new /\ preserves P alm_delete).
Proof.
  intros Hk Hc Hn.
  pose proof (preserves_check_id P) as Hid.
  pose proof (preserves_transfer P Hk Hc Hn) as Ht.
  repeat split; intros;
    unfold suggest, optimize, set_constraint, define, alm_new, alm_delete;
    repeat first [ exact Hid | exact Ht | keep_step
                 | apply preserves_modify; intros s Hs; now auto ].
Qed.

Section Invariants.

Variable E : Type.
Variable h : handler E.

(** The object at the end of a run. *)
Definition final {A} (m : M A) (st : ALM) (es : E) : ALM :=
  snd (fst (fst (run h (m st) es))).

Lemma leaves_run {X} (P : X -> Prop) (p : prog X) (es : E) :
  leaves P p -> P (fst (fst (run h p es))).
Proof.
  revert es. induction p as [x | c k IH]; intros es Hp; cbn in *.
  - exact Hp.
  - apply IH. apply Hp.
Qed.

Lemma preserves_final {A} P (m : M A) st es :
  preserves P m -> P st -> P (final m st es).
Proof.
  intros Hm Hst. unfold final.
  apply (leaves_run (fun r => P (snd r))). now apply Hm.
Qed.

(** X13. Handing over training data or force constants, and every query
    ([get_fc], [getmap_primitive_to_supercell], [get_displacement_patterns],
    [get_matrix_elements], [get_cv_l1_alpha], the optimizer options), leave
    the Python object exactly as it was, whatever the engine answers and
    whether the method returns or raises. *)
Theorem queries_leave_object_unchanged (st : ALM) (es : E) :
  (forall u f, final (set_training_data u f) st es = st)
  /\ (forall fc, final (set_fc fc) st es = st)
  /\ (forall k mode, final (get_fc k mode) st es = st)
  /\ final getmap_primitive_to_supercell st es = st
  /\ (forall k, final (get_displacement_patterns k) st es = st)
  /\ final get_matrix_elements st es = st
  /\ final get_cv_l1_alpha st es = st
  /\ final optimizer_control st es = st
  /\ (forall oc, final (set_optimizer_control oc) st es = st).
Proof.
  destruct (queries_preserve (fun s => s = st))
    as (H1 & H2 & H3 & H4 & H5 & H6 & H7 & H8 & H9).
  repeat split; intros; apply (preserves_final (fun s => s = st));
    auto.
Qed.

(** X14. Only [alm_new] and [alm_delete] assign [_id]: after any other
    method the object refers to the engine instance it referred to before
    (or to none), whatever the engine answers. *)
Theorem only_lifecycle_changes_id (st : ALM) (es : E) :
  _id (final suggest st es) = _id st
  /\ (forall solver, _id (final (optimize solver) st es) = _id st)
  /\ (forall t r, _id (final (set_constraint t r) st es) = _id st)
  /\ (forall mo cr nb b, _id (final (define mo cr nb b) st es) = _id st)
  /\ (forall u f, _id (final (set_training_data u f) st es) = _id st)
  /\ (forall fc, _id (final (set_fc fc) st es) = _id st)
  /\ (forall k mode, _id (final (get_fc k mode) st es) = _id st)
  /\ _id (final getmap_primitive_to_supercell st es) = _id st
  /\ (forall k, _id (final (get_displacement_patterns k) st es) = _id st)
  /\ _id (final get_matrix_elements st es) = _id st
  /\ _id (final get_cv_l1_alpha st es) = _id st
  /\ _id (final optimizer_control st es) = _id st
  /\ (forall oc, _id (final (set_optimizer_control oc) st es) = _id st).
Proof.
  set (P := fun s : ALM => _id s = _id st).
  destruct (queries_preserve P)
    as (H1 & H2 & H3 & H4 & H5 & H6 & H7 & H8 & H9).
  destruct (configuring_preserve P) as (G1 & G2 & G3 & G4 & _);
    try (intros v s Hs; exact Hs).
  assert (G3' : forall t r, preserves P (set_constraint t r))
    by (apply G3; intros v s Hs; exact Hs).
  assert (G4' : forall mo cr nb b, preserves P (define mo cr nb b))
    by (apply G4; intros v s Hs; exact Hs).
  repeat split; intros; apply (preserves_final P); try reflexivity; auto.
Qed.

End Invariants.

(** ** The life of an engine instance *)

Section Lifecycle.

Variable E : Type.
Variable h : handler E.

Ltac unfold_methods :=
  unfold alm_new, alm_delete, suggest, optimize, define,
    _transfer_parameters, _set_cell, _set_verbosity, check_id,
    _show_error_message, bind, get, modify, call, raise, ret.

Definition structure_error : exception :=
  (RuntimeError, "Numbers of atomic points and atomic numbers don't agree.").

(** The buffer that [_set_cell] hands to the engine for the kind indices:
    [np.zeros_like(self._numbers)]. *)
Definition zeros_like (a : ndarray Z) : ndarray Z :=
  mk_ndarray (shape a) (repeat 0 (length (data a))).

(** X1. [alm_new] on a new object with as many coordinates as atomic
    numbers: the engine creates an instance, receives the cell and the
    verbosity under the new id, and the object ends with that id, the kind
    indices the engine wrote, the cell recorded and nothing left to hand
    over. *)
Theorem alm_new_hands_over
  st la x nums n id w es es1 es2 es3 :
  _id st = None ->
  _need_transfer st = true ->
  _lavec st = Some la ->
  _xcoord st = Some x ->
  _numbers st = Some nums ->
  np_len x = Ok n ->
  np_len nums = Ok n ->
  0 <= id ->
  h E_alm_new es = (Ok id, es1) ->
  h (E_set_cell (Some id) la x nums (zeros_like nums)) es1 = (Ok w, es2) ->
  h (E_set_verbosity (Some id) (_verbosity st)) es2 = (Ok tt, es3) ->
  run h (alm_new st) es
    = (Ok tt,
       set_need_transfer false
         (set_cell_attr (Some (la, x, nums))
            (set_kind_indices (Some (overwrite (zeros_like nums) w))
               (set_id (Some id) st))),
       es3,
       [ E_alm_new;
         E_set_cell (Some id) la x nums (zeros_like nums);
         E_set_verbosity (Some id) (_verbosity st) ]).
Proof.
  intros Hid Hneed Hla Hx Hnums Hlx Hln Hpos Hnew Hcell Hverb.
  unfold_methods. cbn. rewrite Hid. cbn. rewrite Hnew. cbn.
  replace (id <? 0) with false by (symmetry; apply Z.ltb_ge; lia).
  cbn. rewrite Hneed. cbn. rewrite Hla, Hx, Hnums. cbn.
  rewrite Hlx, Hln. cbn. rewrite Z.eqb_refl. cbn.
  unfold zeros_like in Hcell. rewrite Hcell. cbn. rewrite Hverb. cbn.
  reflexivity.
Qed.

(** X2. When the engine has no instance left ([alm_new] answers a
    negative number), [alm_new] raises "Too many ALM objects" after that
    one call, but the negative number stays in [_id]: the guard of the
    other methods lets the object pass, and a second [alm_new] is refused
    as on an initialized object. *)
Theorem alm_new_too_many_objects st id es es1 :
  _id st = None ->
  id < 0 ->
  h E_alm_new es = (Ok id, es1) ->
  let st' := set_id (Some id) st in
  run h (alm_new st) es
    = (Exc (RuntimeError, "Too many ALM objects"), st', es1, [E_alm_new])
  /\ check_id st' = Ret (Ok tt, st')
  /\ alm_new st' = Ret (Exc raise_str_error, st').
Proof.
  intros Hid Hneg Hnew st'. repeat split.
  unfold_methods. cbn. rewrite Hid. cbn. rewrite Hnew. cbn.
  replace (id <? 0) with true by (symmetry; apply Z.ltb_lt; lia).
  reflexivity.
Qed.

(** X3. [alm_new] on an object whose coordinates and atomic numbers differ
    in number: the engine instance is created and its id kept, then the
    method raises before the cell is handed over, and the parameters stay
    marked as not handed over. *)
Theorem alm_new_inconsistent_structure
  st la x nums nx nn id es es1 :
  _id st = None ->
  _need_transfer st = true ->
  _lavec st = Some la ->
  _xcoord st = Some x ->
  _numbers st = Some nums ->
  np_len x = Ok nx ->
  np_len nums = Ok nn ->
  nx <> nn ->
  0 <= id ->
  h E_alm_new es = (Ok id, es1) ->
  run h (alm_new st) es
    = (Exc structure_error, set_id (Some id) st, es1, [E_alm_new])
  /\ _need_transfer (set_id (Some id) st) = true.
Proof.
  intros Hid Hneed Hla Hx Hnums Hlx Hln Hne Hpos Hnew.
  split; [ | exact Hneed ].
  unfold_methods. cbn. rewrite Hid. cbn. rewrite Hnew. cbn.
  replace (id <? 0) with false by (symmetry; apply Z.ltb_ge; lia).
  cbn. rewrite Hneed. cbn. rewrite Hla, Hx, Hnums. cbn.
  rewrite Hlx, Hln. cbn.
  replace (nx =? nn) with false by (symmetry; now apply Z.eqb_neq).
  reflexivity.
Qed.

(** X4. [alm_delete] does not mark the parameters as not handed over: on
    an object whose parameters had been handed over, [alm_new] after
    [alm_delete] creates a new engine instance and hands it nothing, no
    cell and no verbosity. *)
Theorem alm_new_after_delete_hands_nothing st i j es es1 es2 :
  _id st = Some i ->
  _need_transfer st = false ->
  0 <= j ->
  h (E_alm_delete (Some i)) es = (Ok tt, es1) ->
  h E_alm_new es1 = (Ok j, es2) ->
  run h ((alm_delete ;; alm_new) st) es
    = (Ok tt, set_id (Some j) (set_id None st), es2,
       [E_alm_delete (Some i); E_alm_new]).
Proof.
  intros Hid Hneed Hpos Hdel Hnew.
  assert (Hd : run h (alm_delete st) es
               = (Ok tt, set_id None st, es1, [E_alm_delete (Some i)])).
  { unfold alm_delete. rewrite (guarded_initialized _ st i Hid).
    unfold bind, get, call, modify. cbn. now rewrite Hid, Hdel. }
  assert (Hn : run h (alm_new (set_id None st)) es1
               = (Ok tt, set_id (Some j) (set_id None st), es2,
                  [E_alm_new])).
  { unfold_methods. cbn. rewrite Hnew. cbn.
    replace (j <? 0) with false by (symmetry; apply Z.ltb_ge; lia).
    cbn. now rewrite Hneed. }
  apply (run_then E h _ _ _ _ _ _ _ _ _ _ _ _ Hd Hn).
Qed.

(** X6. The parameters are marked as handed over exactly when the
    hand-over went through: after [_transfer_parameters] returns the mark
    is cleared, and after it raises the mark is as before, so the next
    method tries again. *)
Theorem transfer_clears_mark_on_success st es :
  let t := run h (_transfer_parameters st) es in
  match fst (fst (fst t)) with
  | Ok _ => _need_transfer (snd (fst (fst t))) = false
  | Exc _ => _need_transfer (snd (fst (fst t))) = _need_transfer st
  end.
Proof.
  unfold_methods. cbn.
  destruct (_need_transfer st) eqn:Hneed; cbn; [ | exact Hneed ].
  destruct (_id st) eqn:Hid; cbn; [ | exact Hneed ].
  destruct (_lavec st); cbn; [ | exact Hneed ].
  destruct (_xcoord st) as [x | ]; cbn; [ | exact Hneed ].
  destruct (_numbers st) as [nums | ]; cbn; [ | exact Hneed ].
  destruct (np_len x); cbn; [ | exact Hneed ].
  destruct (np_len nums); cbn; [ | exact Hneed ].
  destruct (negb _); cbn; [ exact Hneed | ].
  rewrite Hid. cbn.
  destruct (h _ es) as [[w | e] es1]; cbn; [ | exact Hneed ].
  rewrite Hid. cbn.
  destruct (h _ es1) as [[w' | e] es2]; cbn; [ reflexivity | exact Hneed ].
Qed.

(** X7. With an engine instance, parameters still to hand over, and
    coordinates and atomic numbers that differ in number, [suggest],
    [optimize] and [define] all stop at the hand-over: a [RuntimeError],
    no engine call, the object unchanged. *)
Theorem inconsistent_structure_blocks_methods
  st i la x nums nx nn :
  _id st = Some i ->
  _need_transfer st = true ->
  _lavec st = Some la ->
  _xcoord st = Some x ->
  _numbers st = Some nums ->
  np_len x = Ok nx ->
  np_len nums = Ok nn ->
  nx <> nn ->
  suggest st = Ret (Exc structure_error, st)
  /\ (forall solver, optimize solver st = Ret (Exc structure_error, st))
  /\ (forall mo cr nb b,
        define mo cr nb b st = Ret (Exc structure_error, st)).
Proof.
  intros Hid Hneed Hla Hx Hnums Hlx Hln Hne.
  assert (Ht : _transfer_parameters st = Ret (Exc structure_error, st)).
  { unfold_methods. cbn. rewrite Hneed. cbn. rewrite Hid. cbn.
    rewrite Hla, Hx, Hnums. cbn. rewrite Hlx, Hln. cbn.
    replace (nx =? nn) with false by (symmetry; now apply Z.eqb_neq).
    reflexivity. }
  repeat split; intros;
    unfold suggest, optimize, define;
    rewrite (guarded_initialized _ st i Hid);
    unfold bind at 1; rewrite Ht; reflexivity.
Qed.



Definition solver_error : exception :=
  (ValueError,
   String.append "The given solver option is not supported."
     (String.append nl
        "Available options are 'dense' and 'SimplicialLDLT'.")).

(** X8. Once the parameters are handed over, [optimize] calls the engine
    exactly for the solver names 'dense' and 'SimplicialLDLT', spelled so,
    and then returns what the engine returns; any other name is a
    [ValueError] with no [optimize] call. *)
Theorem optimize_solver_names st i es st1 es1 tr1 solver :
  _id st = Some i ->
  run h (_transfer_parameters st) es = (Ok tt, st1, es1, tr1) ->
  let c := E_optimize (Some i) solver in
  (solver = "dense" \/ solver = "SimplicialLDLT" ->
     run h (optimize solver st) es
       = (fst (h c es1), st1, snd (h c es1), tr1 ++ [c]))
  /\ (solver <> "dense" -> solver <> "SimplicialLDLT" ->
     run h (optimize solver st) es = (Exc solver_error, st1, es1, tr1)).
Proof.
  intros Hid Htr c.
  assert (Hid1 : _id st1 = Some i).
  { pose proof (transfer_keeps_id E h st es) as K. cbv zeta in K.
    rewrite Htr in K. cbn in K. destruct K as [K _]. now rewrite K. }
  assert (Hrun : run h (optimize solver st) es
                 = if str_in solver ["dense"; "SimplicialLDLT"]
                   then (fst (h c es1), st1, snd (h c es1), tr1 ++ [c])
                   else (Exc solver_error, st1, es1, tr1)).
  { unfold optimize. rewrite (guarded_initialized _ st i Hid).
    rewrite (run_bind_ok E h _ _ _ _ _ _ _ _ Htr). cbv zeta.
    destruct (str_in solver ["dense"; "SimplicialLDLT"]); cbn [negb].
    - unfold bind, get, call. cbn. rewrite Hid1. fold c.
      now destruct (h c es1).
    - cbn. now rewrite app_nil_r. }
  rewrite Hrun. unfold str_in. cbn [existsb]. split.
  - intros [-> | ->]; reflexivity.
  - intros Hd Hs. apply String.eqb_neq in Hd. apply String.eqb_neq in Hs.
    now rewrite Hd, Hs.
Qed.

(** X15. The configured order is assigned by [define] alone: it survives
    [alm_delete] and a new [alm_new], as well as [suggest], [optimize] and
    [set_constraint], whatever the engine answers. *)
Theorem only_define_changes_maxorder (st : ALM) (es : E) :
  _maxorder (final E h alm_delete st es) = _maxorder st
  /\ _maxorder (final E h alm_new st es) = _maxorder st
  /\ _maxorder (final E h (alm_delete ;; alm_new) st es) = _maxorder st
  /\ _maxorder (final E h suggest st es) = _maxorder st
  /\ (forall solver,
        _maxorder (final E h (optimize solver) st es) = _maxorder st)
  /\ (forall t r,
        _maxorder (final E h (set_constraint t r) st es) = _maxorder st).
Proof.
  set (P := fun s : ALM => _maxorder s = _maxorder st).
  destruct (configuring_preserve P) as (G1 & G2 & G3 & _ & G5);
    try (intros v s Hs; exact Hs).
  destruct G5 as [Gn Gd]; [ intros v s Hs; exact Hs | ].
  assert (G3' : forall t r, preserves P (set_constraint t r))
    by (apply G3; intros v s Hs; exact Hs).
  repeat split; intros; apply (preserves_final E h P); try reflexivity;
    auto.
  apply preserves_bind; auto.
Qed.

(** X16. [define] assigns the configured order exactly when its argument
    checks pass, before the engine is asked and so also when the engine
    then raises; from then on force constants and displacement patterns
    of a higher order are refused.  When a check fails the order stays. *)
Theorem define_assigns_maxorder
  st i es st1 es1 tr1 mo cr nb b :
  _id st = Some i ->
  run h (_transfer_parameters st) es = (Ok tt, st1, es1, tr1) ->
  let st' := final E h (define mo cr nb b) st es in
  ((exists nb' cr', define_nbody mo nb = Ok nb'
                    /\ define_cutoff_radii mo cr = Ok cr') ->
     _maxorder st' = mo
     /\ forall k mode, mo < k ->
          get_fc k mode st' = Ret (Exc order_error, st')
          /\ get_displacement_patterns k st' = Ret (Exc order_error, st'))
  /\ ((forall nb', define_nbody mo nb <> Ok nb')
      \/ (forall cr', define_cutoff_radii mo cr <> Ok cr') ->
     _maxorder st' = _maxorder st).
Proof.
  intros Hid Htr st'.
  pose proof (transfer_keeps_id E h st es) as K. cbv zeta in K.
  rewrite Htr in K. cbn in K. destruct K as (K1 & K2 & _).
  pose proof (define_run E h st i es st1 es1 tr1 mo cr nb b Hid Htr) as Hrun.
  unfold final in st'. split.
  - intros (nb' & cr' & Hnb & Hcr). rewrite Hnb, Hcr in Hrun.
    cbv zeta in Hrun.
    assert (Hst : st' = set_maxorder mo st1).
    { subst st'. rewrite Hrun. now destruct (h _ es1) as [[u | e] es2]. }
    rewrite Hst. split; [ reflexivity | ].
    intros k mode Hk.
    assert (Hgt : (k >? mo) = true) by (apply Z.gtb_lt; exact Hk).
    assert (Hid' : _id (set_maxorder mo st1) = Some i)
      by (cbn; now rewrite K1).
    split.
    + unfold get_fc. rewrite (guarded_initialized _ _ i Hid').
      unfold bind at 1. cbn. now rewrite Hgt.
    + unfold get_displacement_patterns.
      rewrite (guarded_initialized _ _ i Hid').
      unfold bind at 1. cbn. now rewrite Hgt.
  - intros Hfail. subst st'. rewrite Hrun.
    destruct (define_nbody mo nb) as [nb' | e]; [ | exact K2 ].
    destruct (define_cutoff_radii mo cr) as [cr' | e]; [ | exact K2 ].
    destruct Hfail as [Hf | Hf]; [ now elim (Hf nb') | now elim (Hf cr') ].
Qed.

(** X20. Assigning new coordinates after [alm_new] does not reach the
    engine at once: the next method that hands over, here [suggest], sends
    the cell with the new coordinates and the verbosity before its own
    call, and the one after it sends nothing again. *)
Theorem setter_hands_over_once
  st i la x' nums n w es es1 es2 es3 es4 :
  _id st = Some i ->
  _lavec st = Some la ->
  _numbers st = Some nums ->
  np_len x' = Ok n ->
  np_len nums = Ok n ->
  let cell := E_set_cell (Some i) la x' nums (zeros_like nums) in
  let verb := E_set_verbosity (Some i) (_verbosity st) in
  h cell es = (Ok w, es1) ->
  h verb es1 = (Ok tt, es2) ->
  h (E_suggest (Some i)) es2 = (Ok tt, es3) ->
  h (E_suggest (Some i)) es3 = (Ok tt, es4) ->
  let t := run h ((suggest ;; suggest) (set_xcoord_attr x' st)) es in
  fst (fst (fst t)) = Ok tt
  /\ snd t = [cell; verb; E_suggest (Some i); E_suggest (Some i)]
  /\ _need_transfer (snd (fst (fst t))) = false
  /\ _xcoord (snd (fst (fst t))) = Some x'.
Proof.
  intros Hid Hla Hnums Hlx Hln cell verb Hcell Hverb Hs1 Hs2 t. subst t.
  set (st0 := set_xcoord_attr x' st).
  set (st1 := set_need_transfer false
                (set_cell_attr (Some (la, x', nums))
                   (set_kind_indices (Some (overwrite (zeros_like nums) w))
                      st0))).
  assert (Hid0 : _id st0 = Some i) by exact Hid.
  assert (Hid1 : _id st1 = Some i) by exact Hid.
  assert (Ht : run h (_transfer_parameters st0) es
               = (Ok tt, st1, es2, [cell; verb])).
  { unfold_methods. cbn. rewrite Hid. cbn. rewrite Hla, Hnums. cbn.
    rewrite Hlx, Hln. cbn. rewrite Z.eqb_refl. cbn. rewrite ?Hid.
    unfold cell, zeros_like in Hcell. rewrite Hcell. cbn. rewrite ?Hid.
    cbn. rewrite ?Hid. unfold verb in Hverb. rewrite Hverb. reflexivity. }
  assert (H1 : run h (suggest st0) es
               = (Ok tt, st1, es3, [cell; verb; E_suggest (Some i)])).
  { unfold suggest. rewrite (guarded_initialized _ st0 i Hid0).
    rewrite (run_bind_ok E h _ _ _ _ _ _ _ _ Ht). cbv zeta.
    unfold bind, get, call. cbn. rewrite Hid, Hs1. reflexivity. }
  assert (H2 : run h (suggest st1) es3
               = (Ok tt, st1, es4, [E_suggest (Some i)])).
  { unfold suggest. rewrite (guarded_initialized _ st1 i Hid1).
    unfold _transfer_parameters, bind, get, call, ret. cbn.
    rewrite Hid, Hs2. reflexivity. }
  rewrite (run_then E h _ _ _ _ _ _ _ _ _ _ _ _ H1 H2).
  repeat split.
Qed.

End Lifecycle.

(** ** Optimizer options *)

(** The value of the last entry of a dict whose key, in lowercase, is
    [key]. *)
Fixpoint last_value {V} (oc : list (string * V)) (key : string) : option V :=
  match oc with
  | [] => None
  | (k, v) :: r =>
      match last_value r key with
      | Some x => Some x
      | None => if String.eqb (lower k) key then Some v else None
      end
  end.

Lemma dict_get_set {V} (d : list (string * V)) (k key : string) (v : V) :
  dict_get (dict_set d k v) key
    = if String.eqb k key then Some v else dict_get d key.
Proof.
  induction d as [ | [k' v'] r IH]; cbn.
  - reflexivity.
  - destruct (String.eqb_spec k' k) as [-> | Hkk]; cbn.
    + now destruct (String.eqb k key).
    + rewrite IH.
      destruct (String.eqb_spec k' key) as [-> | Hk'];
        [ | reflexivity ].
      destruct (String.eqb_spec k key) as [-> | _];
        [ now elim Hkk | reflexivity ].
Qed.

Lemma dict_get_lowered {V} (oc d : list (string * V)) (key : string) :
  dict_get (fold_left (fun d kv => dict_set d (lower (fst kv)) (snd kv))
                      oc d) key
    = match last_value oc key with
      | Some x => Some x
      | None => dict_get d key
      end.
Proof.
  revert d. induction oc as [ | [k v] r IH]; intros d; cbn.
  - reflexivity.
  - rewrite IH. destruct (last_value r key); [ reflexivity | ].
    rewrite dict_get_set. now destruct (String.eqb (lower k) key).
Qed.

Definition key_error (key : string) : exception :=
  (KeyError,
   String.append key " is not a valide key for optimizer control.").

Lemma check_optcontrol_keys_valid (ks : list string) st :
  Forall (fun k => str_in (lower k) optimizer_control_keys = true) ks ->
  check_optcontrol_keys ks st = Ret (Ok tt, st).
Proof.
  induction 1 as [ | k r Hk _ IH]; cbn [check_optcontrol_keys].
  - reflexivity.
  - rewrite Hk. exact IH.
Qed.

(** X9. [set_optimizer_control] refuses a dict with a key that is not an
    option name in any case: it raises [KeyError] naming the first such
    key, and the engine is not called, also when other keys are valid. *)
Theorem set_optimizer_control_unknown_key
  st i (before after : list (string * pyobj)) (key : string) (v : pyobj) :
  _id st = Some i ->
  Forall (fun kv => str_in (lower (fst kv)) optimizer_control_keys = true)
         before ->
  str_in (lower key) optimizer_control_keys = false ->
  set_optimizer_control (before ++ (key, v) :: after) st
    = Ret (Exc (KeyError,
                String.append key
                  " is not a valide key for optimizer control."), st).
Proof.
  intros Hid Hb Hk. unfold set_optimizer_control.
  rewrite (guarded_initialized _ st i Hid). cbv zeta.
  assert (Hc : check_optcontrol_keys
                 (map fst (before ++ (key, v) :: after)) st
               = Ret (Exc (key_error key), st)).
  { rewrite map_app. cbn [map fst].
    induction Hb as [ | kv r Hkv _ IH];
      cbn [map app check_optcontrol_keys].
    - now rewrite Hk.
    - rewrite Hkv. exact IH. }
  unfold bind at 1. now rewrite Hc.
Qed.

Lemma set_optimizer_control_valid
  st i (optcontrol : list (string * pyobj)) :
  _id st = Some i ->
  Forall (fun kv => str_in (lower (fst kv)) optimizer_control_keys = true)
         optcontrol ->
  set_optimizer_control optcontrol st
    = Vis (E_set_optimizer_control (Some i)
             (map (last_value optcontrol) optimizer_control_keys))
          (fun r => Ret (r, st)).
Proof.
  intros Hid Hv. unfold set_optimizer_control.
  rewrite (guarded_initialized _ st i Hid). cbv zeta.
  rewrite (map_ext _ (last_value optcontrol))
    by (intros key; rewrite dict_get_lowered;
        now destruct (last_value optcontrol key)).
  unfold bind at 1.
  rewrite check_optcontrol_keys_valid
    by (apply Forall_map; exact Hv).
  cbn [pbind fst snd]. unfold bind, get, call. cbn [pbind fst snd].
  now rewrite Hid.
Qed.

(** X10. When every key is an option name in some case, the engine
    receives one entry per option, fifteen in the order of
    [optimizer_control_keys]: the value given under that name in any
    case, the last one if several keys differ only in case, and [None] for
    an option that is not given. *)
Theorem set_optimizer_control_entries
  st i (optcontrol : list (string * pyobj)) :
  _id st = Some i ->
  Forall (fun kv => str_in (lower (fst kv)) optimizer_control_keys = true)
         optcontrol ->
  let optctrl := map (last_value optcontrol) optimizer_control_keys in
  length optctrl = 15%nat
  /\ set_optimizer_control optcontrol st
     = Vis (E_set_optimizer_control (Some i) optctrl)
           (fun r => Ret (r, st)).
Proof.
  intros Hid Hv optctrl. split; [ reflexivity | ].
  now apply set_optimizer_control_valid.
Qed.

Section OptionsRoundTrip.

Variable E : Type.
Variable h : handler E.

(** X11. The dict that the [optimizer_control] property builds from the
    fifteen values of the engine, given back to [set_optimizer_control],
    hands the engine the same fifteen values in the same order, none of
    them [None]. *)
Theorem optimizer_control_round_trip st i es es1 (vals : list pyobj) :
  _id st = Some i ->
  length vals = 15%nat ->
  h (E_get_optimizer_control (Some i)) es = (Ok vals, es1) ->
  let c := E_set_optimizer_control (Some i) (map Some vals) in
  run h ((oc <- optimizer_control ;; set_optimizer_control oc) st) es
    = (fst (h c es1), st, snd (h c es1),
       [E_get_optimizer_control (Some i); c]).
Proof.
  intros Hid Hlen Hget c.
  assert (Hg : run h (optimizer_control st) es
               = (Ok (combine optimizer_control_keys vals), st, es1,
                  [E_get_optimizer_control (Some i)])).
  { unfold optimizer_control. rewrite (guarded_initialized _ st i Hid).
    unfold bind, get, call, ret. cbn [pbind run fst snd].
    rewrite Hid, Hget. reflexivity. }
  rewrite (run_bind_ok E h _ _ _ _ _ _ _ _ Hg). cbv zeta.
  do 15 (destruct vals as [ | ? vals]; [ discriminate Hlen | ]).
  destruct vals; [ | discriminate Hlen ].
  rewrite set_optimizer_control_valid with (i := i);
    [ | exact Hid | repeat constructor ].
  cbn [run fst snd app]. reflexivity.
Qed.

End OptionsRoundTrip.

(** X12. [get_fc] knows the modes "origin", "irreducible", "irred" and
    "all", spelled so: for an order within the configured maximum any
    other mode is a [ValueError] with no engine call, and "irred" is the
    same as "irreducible". *)
Theorem get_fc_modes st i k mode :
  _id st = Some i ->
  k <= _maxorder st ->
  (mode <> "origin" -> mode <> "irreducible" -> mode <> "irred" ->
   mode <> "all" ->
   get_fc k mode st = Ret (Exc (ValueError, "Invalid mode in get_fc."), st))
  /\ get_fc k "irred" st = get_fc k "irreducible" st.
Proof.
  intros Hid Hk.
  assert (Hgt : (k >? _maxorder st) = false).
  { apply not_true_is_false. intros Hc. apply Z.gtb_lt in Hc. lia. }
  split.
  - intros H1 H2 H3 H4. unfold get_fc.
    rewrite (guarded_initialized _ st i Hid).
    unfold bind at 1. cbn [get pbind fst snd]. rewrite Hgt.
    apply String.eqb_neq in H1. apply String.eqb_neq in H2.
    apply String.eqb_neq in H3. apply String.eqb_neq in H4.
    now rewrite H1, H2, H3, H4.
  - reflexivity.
Qed.

(** X17. With a [maxorder] of zero or less, [define] accepts no
    [cutoff_radii] at all: zero is a division by zero, and below zero the
    element count is not a multiple, or its quotient has no square root,
    or the shape would be negative. *)
Theorem define_cutoff_radii_nonpositive_maxorder
  (maxorder : Z) (cr : ndarray double) :
  maxorder <= 0 ->
  (exists e, define_cutoff_radii maxorder (Some cr) = Exc e)
  /\ (maxorder = 0 ->
      define_cutoff_radii maxorder (Some cr)
        = Exc (ZeroDivisionError, "integer division or modulo by zero")).
Proof.
  intros Hmo. split; [ | intros ->; reflexivity ].
  unfold define_cutoff_radii, floordiv.
  destruct (maxorder =? 0) eqn:H0; [ eexists; reflexivity | ].
  apply Z.eqb_neq in H0.
  destruct (size cr / maxorder * maxorder =? size cr) eqn:Hdiv;
    cbn [negb]; [ | eexists; reflexivity ].
  apply Z.eqb_eq in Hdiv.
  assert (Hsz : 0 <= size cr) by (unfold size; lia).
  unfold round_sqrt.
  destruct (size cr / maxorder <? 0) eqn:Hneg; [ eexists; reflexivity | ].
  apply Z.ltb_ge in Hneg.
  assert (Hq : size cr / maxorder = 0) by nia.
  rewrite Hq. cbn. unfold np_reshape. cbn [existsb].
  replace (maxorder <? 0) with true by (symmetry; apply Z.ltb_lt; lia).
  cbn. eexists. reflexivity.
Qed.

(** ** Displacement patterns *)

(** The displacement at position [p] of the arrays the engine filled. *)
Definition entry_at (atoms : list Z) (dirs : list double) (basis : string)
                    (p : nat) : displacement :=
  (nth p atoms 0, firstn 3 (skipn (3 * p) dirs), basis).

(** Consecutive positions cut into groups of the given sizes. *)
Fixpoint split_groups (atoms : list Z) (dirs : list double) (basis : string)
                      (counts : list nat) (p : nat)
  : list (list displacement) :=
  match counts with
  | [] => []
  | n :: r =>
      map (entry_at atoms dirs basis) (seq p n)
      :: split_groups atoms dirs basis r (p + n)
  end.

Lemma split_groups_lengths atoms dirs basis counts p :
  map (@length _) (split_groups atoms dirs basis counts p) = counts.
Proof.
  revert p. induction counts as [ | n r IH]; intros p; cbn;
    [ reflexivity | ].
  now rewrite length_map, length_seq, IH.
Qed.

Lemma split_groups_concat atoms dirs basis counts p :
  concat (split_groups atoms dirs basis counts p)
    = map (entry_at atoms dirs basis) (seq p (list_sum counts)).
Proof.
  revert p. induction counts as [ | n r IH]; intros p; cbn;
    [ reflexivity | ].
  now rewrite IH, seq_app, map_app.
Qed.

Lemma collect_disp_ok (n p : nat) (ai : ndarray Z) (dp : ndarray double)
                      (basis : string) (tot : Z) (rest : list Z) :
  shape dp = tot :: rest ->
  (p + n <= length (data ai))%nat ->
  Z.of_nat (p + n) <= tot ->
  collect_disp n (Z.of_nat p) ai dp basis
    = Ok (map (entry_at (data ai) (data dp) basis) (seq p n),
          Z.of_nat (p + n)).
Proof.
  intros Hs. revert p. induction n as [ | n IH]; intros p Hl Ht; cbn.
  - now rewrite Nat.add_0_r.
  - unfold list_get.
    replace (Z.of_nat p <? 0) with false by (symmetry; apply Z.ltb_ge; lia).
    rewrite Nat2Z.id.
    destruct (nth_error (data ai) p) as [a | ] eqn:Ha;
      [ | apply nth_error_None in Ha; lia ].
    unfold row3. rewrite Hs.
    replace ((0 <=? Z.of_nat p) && (Z.of_nat p <? tot))%bool with true
      by (symmetry; apply andb_true_iff; split;
          [ apply Z.leb_le | apply Z.ltb_lt ]; lia).
    replace (Z.of_nat p + 1) with (Z.of_nat (S p)) by lia.
    rewrite (IH (S p)) by lia.
    replace (S p + n)%nat with (p + S n)%nat by lia.
    f_equal. f_equal. f_equal. unfold entry_at.
    rewrite (nth_error_nth _ _ 0 Ha).
    replace (Z.to_nat (3 * Z.of_nat p)) with (3 * p)%nat by lia.
    reflexivity.
Qed.

Lemma group_disps_ok (numbers : list Z) (p : nat) (ai : ndarray Z)
                     (dp : ndarray double) (basis : string)
                     (tot : Z) (rest : list Z) :
  shape dp = tot :: rest ->
  (p + list_sum (map Z.to_nat numbers) <= length (data ai))%nat ->
  Z.of_nat (p + list_sum (map Z.to_nat numbers)) <= tot ->
  group_disps numbers (Z.of_nat p) ai dp basis
    = Ok (split_groups (data ai) (data dp) basis (map Z.to_nat numbers) p).
Proof.
  intros Hs. revert p.
  induction numbers as [ | num r IH]; intros p Hl Ht;
    cbn [group_disps map split_groups].
  - reflexivity.
  - change (list_sum (map Z.to_nat (num :: r)))
      with (Z.to_nat num + list_sum (map Z.to_nat r))%nat in Hl, Ht.
    rewrite (collect_disp_ok _ _ _ _ _ tot rest Hs) by lia.
    rewrite IH by lia. reflexivity.
Qed.

Lemma sum_counts (numbers : list Z) (a : Z) :
  Forall (fun n => 0 <= n) numbers ->
  fold_left Z.add numbers a
    = a + Z.of_nat (list_sum (map Z.to_nat numbers)).
Proof.
  intros H. unfold list_sum. revert a.
  induction H as [ | n r Hn _ IH]; intros a;
    cbn [fold_left map fold_right].
  - lia.
  - rewrite IH. lia.
Qed.

Section Patterns.

Variable E : Type.
Variable h : handler E.

Lemma run_call_ok (c : ecall) st es (a : resp c) es1 :
  h c es = (Ok a, es1) -> run h (call c st) es = (Ok a, st, es1, [c]).
Proof. intros Hc. unfold call. cbn. now rewrite Hc. Qed.

(** X18. For an order within the configured maximum, with an engine that
    reports the number of displaced atoms of each pattern (none negative),
    fills the two buffers and answers basis 0 or 1,
    [get_displacement_patterns] makes these three calls and returns one
    group per pattern, each of the reported size; read in order, the
    groups are the rows of the two buffers, position by position, all with
    the one basis name. *)
Theorem get_displacement_patterns_groups
  st i k ns nbasis atoms dirs es es1 es2 es3 :
  _id st = Some i ->
  k <= _maxorder st ->
  Forall (fun n => 0 <= n) ns ->
  let m := Z.of_nat (length ns) in
  let tot := fold_left Z.add ns 0 in
  let numbers := mk_ndarray [m] (repeat 0 (Z.to_nat (prod_dims [m]))) in
  let atom_indices :=
    mk_ndarray [tot] (repeat 0 (Z.to_nat (prod_dims [tot]))) in
  let disp_patterns :=
    mk_ndarray [tot; 3] (repeat dzero (Z.to_nat (prod_dims [tot; 3]))) in
  let basis := if nbasis =? 0 then "Cartesian" else "Fractional" in
  h (E_get_number_of_displacement_patterns (Some i) k) es = (Ok m, es1) ->
  h (E_get_number_of_displaced_atoms (Some i) numbers k) es1
    = (Ok ns, es2) ->
  h (E_get_displacement_patterns (Some i) atom_indices disp_patterns k) es2
    = (Ok (nbasis, atoms, dirs), es3) ->
  nbasis = 0 \/ nbasis = 1 ->
  Z.of_nat (length atoms) = tot ->
  Z.of_nat (length dirs) = 3 * tot ->
  exists groups,
    run h (get_displacement_patterns k st) es
      = (Ok groups, st, es3,
         [ E_get_number_of_displacement_patterns (Some i) k;
           E_get_number_of_displaced_atoms (Some i) numbers k;
           E_get_displacement_patterns (Some i) atom_indices
                                       disp_patterns k ])
    /\ map (fun g => Z.of_nat (length g)) groups = ns
    /\ concat groups
       = map (entry_at atoms dirs basis) (seq 0 (Z.to_nat tot)).
Proof.
  intros Hid Hk Hns m tot numbers atom_indices disp_patterns basis
         Hcount Hnum Hpat Hb Hla Hld.
  assert (Hgt : (k >? _maxorder st) = false).
  { apply not_true_is_false. intros Hc. apply Z.gtb_lt in Hc. lia. }
  assert (Htot : tot = Z.of_nat (list_sum (map Z.to_nat ns))).
  { unfold tot. now rewrite (sum_counts ns 0 Hns). }
  assert (Hnumbers : overwrite numbers ns = mk_ndarray [m] ns).
  { apply overwrite_exact. unfold numbers, prod_dims. cbn [data fold_right].
    rewrite repeat_length. unfold m. lia. }
  assert (Hai : overwrite atom_indices atoms = mk_ndarray [tot] atoms).
  { apply overwrite_exact. unfold atom_indices, prod_dims.
    cbn [data fold_right]. rewrite repeat_length. lia. }
  assert (Hdp : overwrite disp_patterns dirs = mk_ndarray [tot; 3] dirs).
  { apply overwrite_exact. unfold disp_patterns, prod_dims.
    cbn [data fold_right]. rewrite repeat_length. lia. }
  exists (split_groups atoms dirs basis (map Z.to_nat ns) 0).
  split; [ | split ].
  - unfold get_displacement_patterns.
    rewrite (guarded_initialized _ st i Hid).
    unfold bind at 1. cbn [get pbind fst snd]. rewrite Hgt.
    eapply eq_trans.
    {
      eapply (run_then E h).
      { unfold _get_number_of_displaced_atoms,
          _get_number_of_displacement_patterns.
        eapply (run_then E h).
        { eapply (run_then E h); [ apply run_get | ].
          rewrite Hid. apply (run_call_ok _ _ _ _ _ Hcount). }
        eapply (run_then E h).
        { rewrite np_zeros_ok by (repeat constructor; lia). apply run_lift. }
        eapply (run_then E h); [ apply run_get | ].
        eapply (run_then E h).
        { rewrite Hid. fold m. fold numbers.
          apply (run_call_ok _ _ _ _ _ Hnum). }
        reflexivity. }
      fold numbers. rewrite Hnumbers. cbv zeta. cbn [data]. fold tot.
      eapply (run_then E h).
      { rewrite np_zeros_ok by (repeat constructor; lia). apply run_lift. }
      eapply (run_then E h).
      { rewrite np_zeros_ok by (repeat constructor; lia). apply run_lift. }
      eapply (run_then E h).
      { rewrite Hid. fold atom_indices. fold disp_patterns.
        apply (run_call_ok _ _ _ _ _ Hpat). }
      cbn [fst snd]. fold atom_indices. fold disp_patterns.
      rewrite Hai, Hdp.
      assert (Hbasis : basis_of nbasis = Ok basis).
      { unfold basis. destruct Hb as [-> | ->]; reflexivity. }
      eapply (run_then E h); [ rewrite Hbasis; apply run_lift | ].
      change 0 with (Z.of_nat 0) at 1.
      rewrite (group_disps_ok ns 0 (mk_ndarray [tot] atoms)
                (mk_ndarray [tot; 3] dirs) basis tot [3] eq_refl)
        by (cbn [data]; lia).
      cbn [data]. apply run_lift.
    }
    reflexivity.
  - rewrite <- (map_map (@length _) Z.of_nat), split_groups_lengths.
    rewrite map_map. rewrite <- (map_id ns) at 2.
    apply map_ext_Forall.
    apply (Forall_impl _ (P := fun n => 0 <= n)); [ | exact Hns ].
    intros n Hn. lia.
  - rewrite split_groups_concat, Htot, Nat2Z.id. reflexivity.
Qed.

End Patterns.

(** ** The sensing matrix *)

Lemma nth_in_rows {A} (g : nat -> nat -> A) (d : A) (c r a i j : nat) :
  (i < r)%nat -> (j < c)%nat ->
  nth (i * c + j)
      (flat_map (fun i => map (g i) (seq 0 c)) (seq a r)) d
    = g (a + i)%nat j.
Proof.
  revert a i. induction r as [ | r IH]; intros a i Hi Hj; [ lia | ].
  cbn [seq flat_map]. destruct i as [ | i].
  - cbn [Nat.mul Nat.add]. rewrite app_nth1 by (now rewrite length_map, length_seq).
    rewrite (nth_indep _ d (g a 0%nat))
      by (now rewrite length_map, length_seq).
    rewrite map_nth, seq_nth by exact Hj. now rewrite Nat.add_0_r.
  - rewrite app_nth2 by (rewrite length_map, length_seq; cbn; lia).
    rewrite length_map, length_seq.
    replace (S i * c + j - c)%nat with (i * c + j)%nat by (cbn; lia).
    rewrite (IH (S a) i) by lia. f_equal. lia.
Qed.

Section Matrix.

Variable E : Type.
Variable h : handler E.

(** X19. With an engine that reports [nrows] rows and [cnt k]
    irreducible force constants of order k, and fills both buffers,
    [get_matrix_elements] returns the vector b as written and the matrix A
    with [nrows] rows and one column per irreducible force constant of the
    orders 1..maxorder; element (r, c) of A is element r + c * nrows of
    what the engine wrote, which is the engine's column-major layout. *)
Theorem get_matrix_elements_layout
  (cnt : Z -> Z) st i nrows wa wb es es1 es2 :
  _id st = Some i ->
  0 <= nrows ->
  (forall k es,
     h (E_get_number_of_irred_fc_elements (Some i) k) es = (Ok (cnt k), es)) ->
  let total := irreducible_total cnt (_maxorder st) in
  let amat :=
    mk_ndarray [nrows * total]
               (repeat dzero (Z.to_nat (prod_dims [nrows * total]))) in
  let bvec := mk_ndarray [nrows] (repeat dzero (Z.to_nat (prod_dims [nrows]))) in
  0 <= total ->
  h (E_get_nrows_amat (Some i)) es = (Ok nrows, es1) ->
  h (E_get_matrix_elements (Some i) amat bvec) es1 = (Ok (wa, wb), es2) ->
  Z.of_nat (length wa) = nrows * total ->
  Z.of_nat (length wb) = nrows ->
  exists a tr,
    run h (get_matrix_elements st) es
      = (Ok (a, mk_ndarray [nrows] wb), st, es2, tr)
    /\ shape a = [nrows; total]
    /\ forall r c : nat,
         Z.of_nat r < nrows -> Z.of_nat c < total ->
         nth (r * Z.to_nat total + c) (data a) dzero
           = nth (r + c * Z.to_nat nrows) wa dzero.
Proof.
  intros Hid Hnr Hcnt total amat bvec Htot Hrows Hmat Hla Hlb.
  assert (Ha : overwrite amat wa = mk_ndarray [nrows * total] wa).
  { apply overwrite_exact. unfold amat, prod_dims. cbn [data fold_right].
    rewrite repeat_length. lia. }
  assert (Hb : overwrite bvec wb = mk_ndarray [nrows] wb).
  { apply overwrite_exact. unfold bvec, prod_dims. cbn [data fold_right].
    rewrite repeat_length. lia. }
  assert (Hre : np_reshape_F dzero (mk_ndarray [nrows * total] wa)
                             nrows total
                = Ok (mk_ndarray [nrows; total]
                        (flat_map (fun r =>
                           map (fun c => nth (r + c * Z.to_nat nrows) wa dzero)
                               (seq 0 (Z.to_nat total)))
                           (seq 0 (Z.to_nat nrows))))).
  { unfold np_reshape_F.
    replace (nrows <? 0) with false by (symmetry; apply Z.ltb_ge; lia).
    replace (total <? 0) with false by (symmetry; apply Z.ltb_ge; lia).
    cbn [orb]. unfold size. cbn [data]. rewrite Hla, Z.eqb_refl.
    reflexivity. }
  do 2 eexists. split; [ | split ].
  - unfold get_matrix_elements.
    rewrite (guarded_initialized _ st i Hid).
    unfold bind at 1. cbn [get pbind fst snd]. cbv zeta.
    eapply (run_then E h).
    { unfold _get_nrows_amat. rewrite (guarded_initialized _ st i Hid).
      eapply (run_then E h); [ apply run_get | ].
      rewrite Hid. apply (run_call_ok E h _ _ _ _ _ Hrows). }
    eapply (run_then E h).
    { unfold range. apply (count_irred_run E h cnt i st Hid Hcnt). }
    rewrite Z.add_0_l. fold (irreducible_total cnt (_maxorder st)).
    fold total.
    eapply (run_then E h).
    { rewrite np_zeros_ok by (repeat constructor; lia). apply run_lift. }
    eapply (run_then E h).
    { rewrite np_zeros_ok by (repeat constructor; lia). apply run_lift. }
    eapply (run_then E h).
    { rewrite Hid. fold amat. fold bvec.
      apply (run_call_ok E h _ _ _ _ _ Hmat). }
    cbn [fst snd]. fold amat. fold bvec. rewrite Ha, Hb.
    eapply (run_then E h); [ rewrite Hre; apply run_lift | ].
    reflexivity.
  - reflexivity.
  - intros r c Hr Hc. cbn [data].
    rewrite (nth_in_rows
               (fun r c => nth (r + c * Z.to_nat nrows) wa dzero))
      by lia.
    reflexivity.
Qed.

End Matrix.

End Wrapper.

Arguments Ret {double pyobj X} x.
Arguments Vis {double pyobj X} c k.
Arguments run {double pyobj E} h {X} p es.

(** ** A small structure, and the wrapper run on it *)

Module Sample.

(** Two atoms of one species; values of dtype 'double' are stood for by
    integers. *)
Definition lavec : ndarray Z := mk_ndarray [3; 3] [8; 0; 0; 0; 8; 0; 0; 0; 8].
Definition xcoord : ndarray Z := mk_ndarray [2; 3] [0; 0; 0; 4; 4; 4].
Definition numbers : ndarray Z := mk_ndarray [2] [14; 14].

(** An engine that reports three irreducible force constants per order. *)
Definition engine : handler Z Z unit := counting_engine Z 0 Z (fun _ => 3).

(** The object as constructed, and after [alm_new]. *)
Definition fresh : ALM Z := ALM_init Z lavec xcoord numbers 0.

Definition ready : ALM Z :=
  snd (fst (fst (run engine (alm_new Z Z fresh) tt))).

(** Two pure translations of the two-atom cell, and a harmonic origin set
    with two coefficients. *)
Definition fcs : mapper Z :=
  mk_mapper Z [[0; 1]; [1; 0]] [0]
            (fun k => if k =? 1 then [(5, [0; 0]); (-5, [0; 3])] else []).



End Sample.

Example sample_ready :
  _id Z Sample.ready = Some 0
  /\ _need_transfer Z Sample.ready = false
  /\ _maxorder Z Sample.ready = 1
  /\ np_len Sample.xcoord = Ok 2.
Proof. repeat split. Qed.

Example sample_alm_new_trace :
  snd (run Sample.engine (alm_new Z Z Sample.fresh) tt)
    = [ E_alm_new Z Z;
        E_set_cell Z Z (Some 0) Sample.lavec Sample.xcoord Sample.numbers
                   (mk_ndarray [2] [0; 0]);
        E_set_verbosity Z Z (Some 0) 0 ].
Proof. reflexivity. Qed.

Example sample_round_sqrt :
  round_sqrt 0 = Ok 0 /\ round_sqrt 1 = Ok 1 /\ round_sqrt 2 = Ok 1
  /\ round_sqrt 3 = Ok 2 /\ round_sqrt 16 = Ok 4.
Proof. repeat split. Qed.

Example sample_capitalize :
  define_fc_basis "CARTESIAN" = "Cartesian"
  /\ define_fc_basis "lattice" = "Lattice"
  /\ define_fc_basis "cubic" = "Lattice".
Proof. repeat split. Qed.

(** The cutoff radii of the silicon example, one value per order. *)
Example sample_cutoff_two_orders :
  define_cutoff_radii Z 2 (Some (mk_ndarray [2] [-1; 73]))
    = Ok (Some (mk_ndarray [2; 1; 1] [-1; 73])).
Proof. reflexivity. Qed.

(** ** The theorems at the sample structure *)

Lemma order_above_maxorder_rejected_witness :
  get_displacement_patterns Z 0 Z 2 Sample.ready
    = Ret (Exc (ValueError,
                "The fc_order must not be larger than the maximum order (maxorder)."),
           Sample.ready)
  /\ get_fc Z 0 Z 2 "all" Sample.ready
    = Ret (Exc (ValueError,
                "The fc_order must not be larger than the maximum order (maxorder)."),
           Sample.ready).
Proof.
  exact (order_above_maxorder_rejected Z 0 Z Sample.ready 0 2 "all"
           eq_refl eq_refl).
Defined.







Lemma set_fc_length_check_witness :
  run Sample.engine (set_fc Z Z [1; 2] Sample.ready) tt
    = (Exc (RuntimeError,
            "The size of the given force constant array is incorrect."),
       Sample.ready, tt,
       [E_get_number_of_irred_fc_elements Z Z (Some 0) 1])
  /\ run Sample.engine (set_fc Z Z [1; 2; 3] Sample.ready) tt
    = (Ok tt, Sample.ready, tt,
       [ E_get_number_of_irred_fc_elements Z Z (Some 0) 1;
         E_set_fc Z Z (Some 0) [1; 2; 3] ]).
Proof.
  split.
  - destruct (set_fc_length_check Z Z unit Sample.engine (fun _ => 3) 0
                Sample.ready tt [1; 2] eq_refl (fun _ _ => eq_refl))
      as [H _].
    apply H. discriminate.
  - destruct (set_fc_length_check Z Z unit Sample.engine (fun _ => 3) 0
                Sample.ready tt [1; 2; 3] eq_refl (fun _ _ => eq_refl))
      as [_ [H _]].
    apply H. reflexivity.
Defined.

Lemma getmap_primitive_to_supercell_shape_witness :
  exists a,
    fst (fst (fst (run (mapper_engine Z 0 Z)
                       (getmap_primitive_to_supercell Z Z Sample.ready)
                       Sample.fcs)))
      = Ok a
    /\ shape a = [2; 1].
Proof.
  destruct (getmap_primitive_to_supercell_shape Z Z (mapper Z)
              (mapper_engine Z 0 Z) Sample.ready 0 Sample.xcoord 2
              Sample.fcs 2 [0; 1] Sample.fcs
              eq_refl eq_refl eq_refl ltac:(lia) (fun _ => eq_refl))
    as [_ [Hshape Hret]].
  destruct Hret as [a Ha]; [ lia | exists 1; reflexivity | ].
  exists a. split; [ exact Ha | ].
  destruct (Hshape a Ha) as [Hs _]. exact Hs.
Defined.


Example sample_get_fc_all :
  fst (fst (fst (run (mapper_engine Z 0 Z)
                     (get_fc Z 0 Z 1 "all" Sample.ready) Sample.fcs)))
    = Ok (mk_ndarray [4] [5; -5; 5; -5],
          mk_ndarray [4; 2] [0; 0; 0; 3; 3; 3; 3; 0]).
Proof. reflexivity. Qed.

(** After the [verbosity] setter the parameters are handed over again by
    the next method that needs the engine, before that method looks at its
    own arguments. *)
Example sample_define_pending_transfer :
  run Sample.engine
      (define Z Z 2 None (Some [2]) "Lattice"
              (set_verbosity_attr Z 1 Sample.ready)) tt
    = (Exc (RuntimeError, "The size of nbody must be equal to maxorder."),
       set_need_transfer Z false (set_verbosity_attr Z 1 Sample.ready), tt,
       [ E_set_cell Z Z (Some 0) Sample.lavec Sample.xcoord Sample.numbers
                    (mk_ndarray [2] [0; 0]);
         E_set_verbosity Z Z (Some 0) 1 ]).
Proof. reflexivity. Qed.

Example sample_set_constraint_fresh :
  run Sample.engine (set_constraint Z Z false false Sample.fresh) tt
    = (Ok tt, set_iconst Z 10 Sample.fresh, tt,
       [E_set_constraint_type Z Z None 10]).
Proof. reflexivity. Qed.

(** ** More engines for the sample structure *)

Module Sample2.

(** An engine with no instance left. *)
Definition full_engine : handler Z Z unit :=
  fun c es =>
    match c return outcome (resp Z Z c) * unit with
    | E_alm_new _ _ => (Ok (-1), es)
    | c' => (Ok (default_resp Z 0 Z c'), es)
    end.

Definition option_values : list Z :=
  [1; 0; 10000; 1; 50; 1; 1; 0; 0; 2; 3; 4; 5; 1; 0].

(** An engine that reports its fifteen optimizer options. *)
Definition options_engine : handler Z Z unit :=
  fun c es =>
    match c return outcome (resp Z Z c) * unit with
    | E_get_optimizer_control _ _ _ => (Ok option_values, es)
    | c' => (Ok (default_resp Z 0 Z c'), es)
    end.

(** An engine with two harmonic displacement patterns, of one and of two
    displaced atoms, in the Cartesian basis. *)
Definition patterns_engine : handler Z Z unit :=
  fun c es =>
    match c return outcome (resp Z Z c) * unit with
    | E_get_number_of_displacement_patterns _ _ _ _ => (Ok 2, es)
    | E_get_number_of_displaced_atoms _ _ _ _ _ => (Ok [1; 2], es)
    | E_get_displacement_patterns _ _ _ _ _ _ =>
        (Ok (0, [0; 0; 1], [1; 0; 0; 0; 1; 0; 0; 0; 1]), es)
    | c' => (Ok (default_resp Z 0 Z c'), es)
    end.

(** An engine with two rows of training data and three irreducible force
    constants; it writes the sensing matrix column by column. *)
Definition matrix_engine : handler Z Z unit :=
  fun c es =>
    match c return outcome (resp Z Z c) * unit with
    | E_get_nrows_amat _ _ _ => (Ok 2, es)
    | E_get_number_of_irred_fc_elements _ _ _ _ => (Ok 3, es)
    | E_get_matrix_elements _ _ _ _ _ =>
        (Ok ([11; 21; 12; 22; 13; 23], [7; 8]), es)
    | c' => (Ok (default_resp Z 0 Z c'), es)
    end.

(** The sample object with a third atomic number assigned. *)
Definition three_numbers : ndarray Z := mk_ndarray [3] [14; 14; 14].

Definition fresh_bad : ALM Z :=
  ALM_init Z Sample.lavec Sample.xcoord three_numbers 0.

Definition ready_bad : ALM Z := set_numbers_attr Z three_numbers Sample.ready.

(** New coordinates for the two atoms. *)
Definition xcoord' : ndarray Z := mk_ndarray [2; 3] [0; 0; 0; 2; 2; 2].

End Sample2.

Example sample_get_matrix_elements :
  fst (fst (fst (run Sample2.matrix_engine
                     (get_matrix_elements Z 0 Z Sample.ready) tt)))
    = Ok (mk_ndarray [2; 3] [11; 12; 13; 21; 22; 23], mk_ndarray [2] [7; 8]).
Proof. reflexivity. Qed.

Example sample_get_displacement_patterns :
  fst (fst (fst (run Sample2.patterns_engine
                     (get_displacement_patterns Z 0 Z 1 Sample.ready) tt)))
    = Ok [ [(0, [1; 0; 0], "Cartesian")];
           [(0, [0; 1; 0], "Cartesian"); (1, [0; 0; 1], "Cartesian")] ].
Proof. reflexivity. Qed.

(** ** The further theorems at the sample structure *)

Lemma alm_new_hands_over_witness :
  run Sample.engine (alm_new Z Z Sample.fresh) tt
    = (Ok tt, Sample.ready, tt,
       [ E_alm_new Z Z;
         E_set_cell Z Z (Some 0) Sample.lavec Sample.xcoord Sample.numbers
                    (mk_ndarray [2] [0; 0]);
         E_set_verbosity Z Z (Some 0) 0 ]).
Proof.
  exact (alm_new_hands_over Z Z unit Sample.engine Sample.fresh
           Sample.lavec Sample.xcoord Sample.numbers 2 0 [] tt tt tt tt
           eq_refl eq_refl eq_refl eq_refl eq_refl eq_refl eq_refl
           ltac:(lia) eq_refl eq_refl eq_refl).
Defined.

Lemma alm_new_too_many_objects_witness :
  run Sample2.full_engine (alm_new Z Z Sample.fresh) tt
    = (Exc (RuntimeError, "Too many ALM objects"),
       set_id Z (Some (-1)) Sample.fresh, tt, [E_alm_new Z Z])
  /\ check_id Z Z (set_id Z (Some (-1)) Sample.fresh)
     = Ret (Ok tt, set_id Z (Some (-1)) Sample.fresh)
  /\ alm_new Z Z (set_id Z (Some (-1)) Sample.fresh)
     = Ret (Exc raise_str_error, set_id Z (Some (-1)) Sample.fresh).
Proof.
  exact (alm_new_too_many_objects Z Z unit Sample2.full_engine
           Sample.fresh (-1) tt tt eq_refl ltac:(lia) eq_refl).
Defined.

Lemma alm_new_inconsistent_structure_witness :
  run Sample.engine (alm_new Z Z Sample2.fresh_bad) tt
    = (Exc (RuntimeError,
            "Numbers of atomic points and atomic numbers don't agree."),
       set_id Z (Some 0) Sample2.fresh_bad, tt, [E_alm_new Z Z]).
Proof.
  destruct (alm_new_inconsistent_structure Z Z unit Sample.engine
              Sample2.fresh_bad Sample.lavec Sample.xcoord
              Sample2.three_numbers 2 3 0 tt tt
              eq_refl eq_refl eq_refl eq_refl eq_refl eq_refl eq_refl
              ltac:(lia) ltac:(lia) eq_refl)
    as [H _].
  exact H.
Defined.

Lemma alm_new_after_delete_hands_nothing_witness :
  snd (run Sample.engine
           (bind Z Z (alm_delete Z Z) (fun _ => alm_new Z Z) Sample.ready)
           tt)
    = [E_alm_delete Z Z (Some 0); E_alm_new Z Z].
Proof.
  exact (f_equal snd
           (alm_new_after_delete_hands_nothing Z Z unit Sample.engine
              Sample.ready 0 0 tt tt tt eq_refl eq_refl ltac:(lia)
              eq_refl eq_refl)).
Defined.


Lemma inconsistent_structure_blocks_methods_witness :
  suggest Z Z Sample2.ready_bad
    = Ret (Exc structure_error, Sample2.ready_bad)
  /\ define Z Z 1 None None "Lattice" Sample2.ready_bad
    = Ret (Exc structure_error, Sample2.ready_bad).
Proof.
  destruct (inconsistent_structure_blocks_methods Z Z Sample2.ready_bad 0
              Sample.lavec Sample.xcoord Sample2.three_numbers 2 3
              eq_refl eq_refl eq_refl eq_refl eq_refl eq_refl eq_refl
              ltac:(lia))
    as [H1 [_ H3]].
  split; [ exact H1 | apply H3 ].
Defined.

Lemma optimize_solver_names_witness :
  run Sample.engine (optimize Z Z "Dense" Sample.ready) tt
    = (Exc solver_error, Sample.ready, tt, []).
Proof.
  destruct (optimize_solver_names Z Z unit Sample.engine Sample.ready 0 tt
              Sample.ready tt [] "Dense" eq_refl eq_refl)
    as [_ H].
  apply H; discriminate.
Defined.

Lemma set_optimizer_control_unknown_key_witness :
  set_optimizer_control Z Z [("L1_alpha", 2); ("solver", 1); ("l1_ratio", 1)]
                        Sample.ready
    = Ret (Exc (KeyError,
                "solver is not a valide key for optimizer control."),
           Sample.ready).
Proof.
  exact (set_optimizer_control_unknown_key Z Z Sample.ready 0
           [("L1_alpha", 2)] [("l1_ratio", 1)] "solver" 1
           eq_refl ltac:(repeat constructor) eq_refl).
Defined.

Lemma set_optimizer_control_entries_witness :
  set_optimizer_control Z Z
      [("L1_alpha", 2); ("cross_validation", 5); ("l1_alpha", 3)]
      Sample.ready
    = Vis (E_set_optimizer_control Z Z (Some 0)
             [ None; None; None; None; None; None; None; None; Some 5;
               Some 3; None; None; None; None; None ])
          (fun r => Ret (r, Sample.ready)).
Proof.
  destruct (set_optimizer_control_entries Z Z Sample.ready 0
              [("L1_alpha", 2); ("cross_validation", 5); ("l1_alpha", 3)]
              eq_refl ltac:(repeat constructor))
    as [_ H].
  exact H.
Defined.

Lemma optimizer_control_round_trip_witness :
  snd (run Sample2.options_engine
           (bind Z Z (optimizer_control Z Z)
                 (fun oc => set_optimizer_control Z Z oc) Sample.ready) tt)
    = [ E_get_optimizer_control Z Z (Some 0);
        E_set_optimizer_control Z Z (Some 0)
          (map Some Sample2.option_values) ].
Proof.
  exact (f_equal snd
           (optimizer_control_round_trip Z Z unit Sample2.options_engine
              Sample.ready 0 tt tt Sample2.option_values
              eq_refl eq_refl eq_refl)).
Defined.

Lemma get_fc_modes_witness :
  get_fc Z 0 Z 1 "Origin" Sample.ready
    = Ret (Exc (ValueError, "Invalid mode in get_fc."), Sample.ready).
Proof.
  destruct (get_fc_modes Z 0 Z Sample.ready 0 1 "Origin"
              eq_refl ltac:(cbn; lia))
    as [H _].
  apply H; discriminate.
Defined.

Lemma define_assigns_maxorder_witness :
  _maxorder Z (final Z Z unit Sample.engine
                 (define Z Z 2 None None "Lattice") Sample.ready tt) = 2
  /\ _maxorder Z (final Z Z unit Sample.engine
                    (define Z Z 2 None (Some [2]) "Lattice") Sample.ready tt)
     = 1.
Proof.
  destruct (define_assigns_maxorder Z 0 Z unit Sample.engine Sample.ready 0
              tt Sample.ready tt [] 2 None None "Lattice" eq_refl eq_refl)
    as [H _].
  destruct H as [H _]; [ exists [2; 3], None; split; reflexivity | ].
  destruct (define_assigns_maxorder Z 0 Z unit Sample.engine Sample.ready 0
              tt Sample.ready tt [] 2 None (Some [2]) "Lattice"
              eq_refl eq_refl)
    as [_ G].
  split; [ exact H | ].
  apply G. left. intros nb' Hnb. discriminate Hnb.
Defined.

Lemma define_cutoff_radii_nonpositive_maxorder_witness :
  define_cutoff_radii Z 0 (Some (mk_ndarray [1] [5]))
    = Exc (ZeroDivisionError, "integer division or modulo by zero").
Proof.
  destruct (define_cutoff_radii_nonpositive_maxorder Z 0
              (mk_ndarray [1] [5]) ltac:(lia))
    as [_ H].
  exact (H eq_refl).
Defined.

Lemma setter_hands_over_once_witness :
  snd (run Sample.engine
           (bind Z Z (suggest Z Z) (fun _ => suggest Z Z)
                 (set_xcoord_attr Z Sample2.xcoord' Sample.ready)) tt)
    = [ E_set_cell Z Z (Some 0) Sample.lavec Sample2.xcoord' Sample.numbers
                   (mk_ndarray [2] [0; 0]);
        E_set_verbosity Z Z (Some 0) 0;
        E_suggest Z Z (Some 0);
        E_suggest Z Z (Some 0) ].
Proof.
  destruct (setter_hands_over_once Z Z unit Sample.engine Sample.ready 0
              Sample.lavec Sample2.xcoord' Sample.numbers 2 [] tt tt tt tt tt
              eq_refl eq_refl eq_refl eq_refl eq_refl
              eq_refl eq_refl eq_refl eq_refl)
    as [_ [H _]].
  exact H.
Defined.

Lemma get_displacement_patterns_groups_witness :
  exists groups,
    fst (fst (fst (run Sample2.patterns_engine
                       (get_displacement_patterns Z 0 Z 1 Sample.ready) tt)))
      = Ok groups
    /\ map (fun g => Z.of_nat (length g)) groups = [1; 2]
    /\ concat groups
       = [ (0, [1; 0; 0], "Cartesian"); (0, [0; 1; 0], "Cartesian");
           (1, [0; 0; 1], "Cartesian") ].
Proof.
  destruct (get_displacement_patterns_groups Z 0 Z unit
              Sample2.patterns_engine Sample.ready 0 1 [1; 2] 0 [0; 0; 1]
              [1; 0; 0; 0; 1; 0; 0; 0; 1] tt tt tt tt
              eq_refl ltac:(cbn; lia) ltac:(repeat constructor; lia)
              eq_refl eq_refl eq_refl (or_introl eq_refl) eq_refl eq_refl)
    as [groups [Hrun [Hlen Hcat]]].
  exists groups. split; [ now rewrite Hrun | ].
  split; [ exact Hlen | exact Hcat ].
Defined.

Lemma get_matrix_elements_layout_witness :
  exists a,
    fst (fst (fst (run Sample2.matrix_engine
                       (get_matrix_elements Z 0 Z Sample.ready) tt)))
      = Ok (a, mk_ndarray [2] [7; 8])
    /\ shape a = [2; 3]
    /\ nth (1 * 3 + 2) (data a) 0 = 23.
Proof.
  destruct (get_matrix_elements_layout Z 0 Z unit Sample2.matrix_engine
              (fun _ => 3) Sample.ready 0 2 [11; 21; 12; 22; 13; 23] [7; 8]
              tt tt tt
              eq_refl ltac:(lia) (fun _ _ => eq_refl)
              ltac:(vm_compute; discriminate)
              eq_refl eq_refl eq_refl eq_refl)
    as [a [tr [Hrun [Hshape Hnth]]]].
  exists a. split; [ now rewrite Hrun | ].
  split; [ exact Hshape | ].
  exact (Hnth 1%nat 2%nat ltac:(lia) ltac:(vm_compute; reflexivity)).
Defined.
